(** * Algorithm object model of oneDAL: z-score Batch and the Xavier task descriptor

    Shallow embedding of
    - [cpp/daal/src/algorithms/normalization/zscore/inner/zscore_v2.h]
      (classes [BatchImpl] and [Batch<algorithmFPType, method>]), and
    - [algorithms/kernel/neural_networks/initializers/xavier/xavier_initializer_task_descriptor.cpp]
      (the constructor of [XavierInitializerTaskDescriptor]).

    Objects live in a store indexed by locations; raw pointers are places in
    that store, so that [&input], [&parameter] and [_result.get()] keep their
    identity.  Member functions are computations in a small state-and-failure
    monad over the store; a computation fails exactly where the C++ code would
    dereference something that is not an object of the expected class. *)

From stdpp Require Import base option gmap.

(** ** Places, raw pointers and shared handles *)

Abbreviation loc := positive (only parsing).

(** The classes that the two source files name.  They only tag pointers
    (a phantom index): an upcast changes the tag and keeps the address. *)
Inductive class :=
  | algorithms_Input | zscore_Input
  | algorithms_Parameter | zscore_BaseParameter | zscore_Parameter
  | algorithms_Result | zscore_Result
  | AlgorithmContainerImpl | services_env
  | zscore_BatchImpl | zscore_Batch
  | xavier_Parameter | initializers_Result
  | engines_BatchBase | forward_LayerIface | Tensor.

(** The data members whose address the code takes. *)
Inductive member := m_input | m_parameter | m__env.

Inductive place :=
  | whole (l : loc)                   (* the object allocated at [l] *)
  | member_of (l : loc) (f : member). (* [&(l->f)] *)

(** [T *]: a null pointer or the address of a place. *)
Record pointer (T : class) := mk_pointer { address : option place }.
Arguments mk_pointer {T} _.
Arguments address {T} _.

Definition nullptr {T} : pointer T := mk_pointer None.
Definition pointer_to {T} (l : loc) : pointer T := mk_pointer (Some (whole l)).
Definition address_of {T} (l : loc) (f : member) : pointer T :=
  mk_pointer (Some (member_of l f)).

(** Implicit derived-to-base conversion of a pointer (single inheritance:
    same address, other static type). *)
Definition upcast {T U} (p : pointer T) : pointer U := mk_pointer (address p).

(** Modelled from the spec: [services::SharedPtr<T>] is not in the source
    files; a handle is either empty or refers to one shared, heap-allocated
    object.  [get()] gives the raw pointer, the conversion to [bool] tells
    whether the handle is non-empty.  Owner counting is not modelled: the
    store below never frees an object. *)
Record SharedPtr (T : class) := mk_SharedPtr { _ptr : pointer T }.
Arguments mk_SharedPtr {T} _.
Arguments _ptr {T} _.

Definition SharedPtr_null {T} : SharedPtr T := mk_SharedPtr nullptr.
Definition SharedPtr_ctor {T} (p : pointer T) : SharedPtr T := mk_SharedPtr p.
Definition SharedPtr_get {T} (s : SharedPtr T) : pointer T := _ptr s.
Definition SharedPtr_bool {T} (s : SharedPtr T) : bool :=
  match address (_ptr s) with Some _ => true | None => false end.

(** ** Status *)

(** Modelled from the spec: the error enumeration is declared outside the
    source files; [ErrorNullResult] is the one the code names, the others are
    the remaining kinds of the spec's taxonomy. *)
Inductive ErrorID :=
  | ErrorNullResult
  | ErrorInvalidInput
  | ErrorAllocationFailure
  | ErrorUnsupportedConfiguration
  | ErrorKernelComputation.

(** Modelled from the spec: a Status is an ordered collection of error
    descriptors, and the empty one is success. *)
Definition Status := list ErrorID.
Definition Status_ctor : Status := [].                       (* services::Status() *)
Definition Status_of (e : ErrorID) : Status := [e].          (* services::Status(error) *)
Definition Status_ok (s : Status) : bool :=
  match s with [] => true | _ => false end.

(** ** The store monad *)

Section store.
Context {object : Type}.

Definition M (A : Type) : Type := gmap loc object → option (A * gmap loc object).

Definition M_ret {A} (a : A) : M A := λ h, Some (a, h).
Definition M_bind {A B} (f : A → M B) (m : M A) : M B :=
  λ h, match m h with Some (a, h') => f a h' | None => None end.
Definition M_fail {A} : M A := λ _, None.

(** [operator new]: fresh raw storage; [raw] is the mark of storage in
    which nothing has been constructed yet. *)
Definition operator_new (raw : object) : M loc :=
  λ h, let l := fresh (dom h) in Some (l, <[l := raw]> h).

Definition read (l : loc) : M object :=
  λ h, match h !! l with Some o => Some (o, h) | None => None end.

Definition write (l : loc) (o : object) : M unit :=
  λ h, match h !! l with Some _ => Some ((), <[l := o]> h) | None => None end.
End store.

Arguments M : clear implicits.

Global Instance M_mret {object} : MRet (M object) := @M_ret object.
Global Instance M_mbind {object} : MBind (M object) := @M_bind object.

(** Modelled from the spec: the macro [DAAL_CHECK(cond, error)] is defined
    outside the source files; the enclosing function fails with [error] when
    [cond] does not hold and goes on otherwise. *)
Definition DAAL_CHECK {object} (cond : bool) (error : ErrorID)
    (rest : M object Status) : M object Status :=
  if cond then rest else mret (Status_of error).

(** ** Xavier initializer: [xavier_initializer_task_descriptor.cpp] *)

Module Xavier.

(** Modelled from the spec: the Parameter of an initializer-style
    algorithm holds, next to its value-typed configuration, a handle to the
    random-number engine and a handle to the layer under initialization.
    The source reads them as [pa->engine] and [pa->layer].  (The class is
    [xavier::Parameter].) *)
Record XavierParameter := mk_XavierParameter {
  engine : SharedPtr engines_BatchBase;
  layer : SharedPtr forward_LayerIface }.

(** The identifiers of the entries of an initializer Result; the source
    names [initializers::value]. *)
Inductive ResultId := value.

(** Modelled from the spec: a Result is a container of shared handles, one
    per identifier; [get(id)] gives the handle stored for [id], which is empty
    as long as no buffer was set or allocated. *)
Record Result := mk_Result { Result_get : ResultId → SharedPtr Tensor }.

Inductive object :=
  | OParameter (p : XavierParameter)
  | OResult (r : Result)
  | OOther.                      (* an engine, a layer, a tensor, ... *)

Definition load_Parameter (pa : pointer xavier_Parameter) : M object XavierParameter :=
  match address pa with
  | Some (whole l) =>
      o ← read l; match o with OParameter p => mret p | _ => M_fail end
  | _ => M_fail
  end.

Definition load_Result (re : pointer initializers_Result) : M object Result :=
  match address re with
  | Some (whole l) =>
      o ← read l; match o with OResult r => mret r | _ => M_fail end
  | _ => M_fail
  end.

Module internal.

Record XavierInitializerTaskDescriptor := mk_XavierInitializerTaskDescriptor {
  engine : pointer engines_BatchBase;
  layer : pointer forward_LayerIface;
  result : pointer Tensor }.

(** [XavierInitializerTaskDescriptor(Result *re, Parameter *pa)]
    (lines 33-38): three assignments, each through one dereference. *)
Definition XavierInitializerTaskDescriptor_ctor
    (re : pointer initializers_Result) (pa : pointer xavier_Parameter)
  : M object XavierInitializerTaskDescriptor :=
  p1 ← load_Parameter pa;
  let engine := SharedPtr_get (Xavier.engine p1) in
  p2 ← load_Parameter pa;
  let layer := SharedPtr_get (Xavier.layer p2) in
  r ← load_Result re;
  let result := SharedPtr_get (Result_get r value) in
  mret (mk_XavierInitializerTaskDescriptor engine layer result).

End internal.

(** *** Two stores, for examples *)

Module Demo.

(** A Parameter at 1 with an engine at 10 and a layer at 11, a Result at 2
    whose value buffer is the tensor at 12. *)
Definition configured : gmap loc object :=
  <[1%positive := OParameter (mk_XavierParameter (SharedPtr_ctor (pointer_to 10))
                                (SharedPtr_ctor (pointer_to 11)))]>
    (<[2%positive := OResult (mk_Result (λ _, SharedPtr_ctor (pointer_to 12)))]>
       (<[10%positive := OOther]> (<[11%positive := OOther]> (<[12%positive := OOther]> ∅)))).

(** A Parameter at 1 without engine and layer, a Result at 2 without value
    buffer. *)
Definition unconfigured : gmap loc object :=
  <[1%positive := OParameter (mk_XavierParameter SharedPtr_null SharedPtr_null)]>
    (<[2%positive := OResult (mk_Result (λ _, SharedPtr_null))]> ∅).

End Demo.
End Xavier.

(** ** z-score normalization, batch mode: [zscore_v2.h] *)

Module Zscore.

(** [algorithmFPType]: "double or float" (documentation of [Batch]). *)
Inductive FPType := FP_float | FP_double.

(** Modelled from the spec: the Environment descriptor holds the detected
    CPU capability tier. *)
Record env {CpuType : Type} := mk_env { cpuid : CpuType }.
Arguments env : clear implicits.
Arguments mk_env {CpuType} _.

(** Modelled from the spec: a Container is bound to one (numeric
    precision, method, CPU tier) combination; the tier is the one found in
    the Environment when the Container is constructed. *)
Record AlgorithmContainer {Method CpuType : Type} := mk_AlgorithmContainer {
  ac_algorithmFPType : FPType;
  ac_method : Method;
  ac_cpu : CpuType;
  ac_daalEnv : pointer services_env }.
Arguments AlgorithmContainer : clear implicits.
Arguments mk_AlgorithmContainer {Method CpuType} _ _ _ _.

(** The members of the base class [Analysis<batch>] that the source file
    assigns or passes on. *)
Record Algorithm {CpuType : Type} := mk_Algorithm {
  _ac : pointer AlgorithmContainerImpl;
  _in : pointer algorithms_Input;
  _par : pointer algorithms_Parameter;
  _res : pointer algorithms_Result;
  _env : env CpuType }.
Arguments Algorithm : clear implicits.
Arguments mk_Algorithm {CpuType} _ _ _ _ _.

(** What [zscore_types_v2.h] and [algorithms/algorithm.h] declare is not in
    the source files: the types below, their constructors and
    [Result::allocate] are what the development is parameterized by. *)
Class Declarations := {
  Method : Type;               (* zscore::Method; [defaultDense] is one of its values *)
  CpuType : Type;              (* CPU capability tier *)
  InputType : Type;            (* zscore::Input, a value *)
  ParameterType : Type;        (* zscore::Parameter<algorithmFPType, method>, a value *)
  BaseParameter : Type;        (* zscore::BaseParameter, the base sub-object *)
  ResultType : Type;           (* zscore::Result, the content of a Result object *)
  InputType_ctor : InputType;                            (* Input() *)
  ParameterType_ctor : FPType → Method → ParameterType;  (* Parameter<fp, method>() *)
  ResultType_ctor : ResultType;                          (* ResultType(): the empty Result *)
  to_BaseParameter : ParameterType → BaseParameter;      (* the base view of a Parameter *)
  (* [Result::allocate<algorithmFPType>(input, parameter, method)], on the
     values behind its two pointer arguments: the Status and the new content
     of the Result object *)
  Result_allocate :
    FPType → InputType → ParameterType → Method → ResultType → Status * ResultType;
  (* what the default constructor of the base class leaves in its members *)
  Algorithm_ctor : Algorithm CpuType }.

Section interface2.
Context `{Declarations}.

Abbreviation ResultPtr := (SharedPtr zscore_Result).

(** An object of class [Batch<algorithmFPType, method>]: the two template
    arguments (its dynamic type), the base sub-object, then the members of
    [BatchImpl] and of [Batch]. *)
Record Batch := mk_Batch {
  algorithmFPType : FPType;
  method : Method;
  super : Algorithm CpuType;
  input : InputType;
  _result : ResultPtr;
  parameter : ParameterType }.

Definition set__ac (v : pointer AlgorithmContainerImpl) (b : Batch) : Batch :=
  mk_Batch (algorithmFPType b) (method b)
    (mk_Algorithm v (_in (super b)) (_par (super b)) (_res (super b)) (_env (super b)))
    (input b) (_result b) (parameter b).
Definition set__in (v : pointer algorithms_Input) (b : Batch) : Batch :=
  mk_Batch (algorithmFPType b) (method b)
    (mk_Algorithm (_ac (super b)) v (_par (super b)) (_res (super b)) (_env (super b)))
    (input b) (_result b) (parameter b).
Definition set__par (v : pointer algorithms_Parameter) (b : Batch) : Batch :=
  mk_Batch (algorithmFPType b) (method b)
    (mk_Algorithm (_ac (super b)) (_in (super b)) v (_res (super b)) (_env (super b)))
    (input b) (_result b) (parameter b).
Definition set__res (v : pointer algorithms_Result) (b : Batch) : Batch :=
  mk_Batch (algorithmFPType b) (method b)
    (mk_Algorithm (_ac (super b)) (_in (super b)) (_par (super b)) v (_env (super b)))
    (input b) (_result b) (parameter b).
Definition set__result (v : ResultPtr) (b : Batch) : Batch :=
  mk_Batch (algorithmFPType b) (method b) (super b) (input b) v (parameter b).

Inductive object :=
  | ORaw                                   (* storage, nothing constructed *)
  | OResult (r : ResultType)
  | OContainer (c : AlgorithmContainer Method CpuType)
  | OBatch (b : Batch).

Abbreviation heap := (gmap loc object).
Abbreviation St := (M object).

(** *** Access through [this] and through pointers *)

Definition load_Batch (this : loc) : St Batch :=
  o ← read this; match o with OBatch b => mret b | _ => M_fail end.

(** [this->field = v] *)
Definition assign (this : loc) (f : Batch → Batch) : St unit :=
  b ← load_Batch this; write this (OBatch (f b)).

(** Runs a constructor on raw storage. *)
Definition construct (l : loc) (o : object) : St unit :=
  s ← read l; match s with ORaw => write l o | _ => M_fail end.

Definition load_Result (p : pointer zscore_Result) : St (loc * ResultType) :=
  match address p with
  | Some (whole l) =>
      o ← read l; match o with OResult r => mret (l, r) | _ => M_fail end
  | _ => M_fail
  end.

Definition load_Input (p : pointer algorithms_Input) : St InputType :=
  match address p with
  | Some (member_of l m_input) => b ← load_Batch l; mret (input b)
  | _ => M_fail
  end.

Definition load_Parameter (p : pointer algorithms_Parameter) : St ParameterType :=
  match address p with
  | Some (member_of l m_parameter) => b ← load_Batch l; mret (parameter b)
  | _ => M_fail
  end.

Definition load_BaseParameter (p : pointer zscore_BaseParameter) : St BaseParameter :=
  match address p with
  | Some (member_of l m_parameter) =>
      b ← load_Batch l; mret (to_BaseParameter (parameter b))
  | _ => M_fail
  end.

Definition load_env (p : pointer services_env) : St (env CpuType) :=
  match address p with
  | Some (member_of l m__env) => b ← load_Batch l; mret (_env (super b))
  | _ => M_fail
  end.

(** [new ResultType()] *)
Definition new_ResultType : St (pointer zscore_Result) :=
  l ← operator_new ORaw;
  construct l (OResult ResultType_ctor);;
  mret (pointer_to l).

(** [new __DAAL_ALGORITHM_CONTAINER(batch, BatchContainer, fp, method)(daalEnv)] *)
Definition new_AlgorithmContainer (fp : FPType) (m : Method)
    (daalEnv : pointer services_env) : St (pointer AlgorithmContainerImpl) :=
  e ← load_env daalEnv;
  l ← operator_new ORaw;
  construct l (OContainer (mk_AlgorithmContainer fp m (cpuid e) daalEnv));;
  mret (pointer_to l).

(** [result->allocate<fp>(input, parameter, method)] *)
Definition call_Result_allocate (fp : FPType) (result : ResultPtr)
    (pin : pointer algorithms_Input) (ppar : pointer algorithms_Parameter)
    (m : Method) : St Status :=
  '(l, r) ← load_Result (SharedPtr_get result);
  i ← load_Input pin;
  p ← load_Parameter ppar;
  write l (OResult (Result_allocate fp i p m r).2);;
  mret (Result_allocate fp i p m r).1.

(** *** class BatchImpl *)

(** [void initialize()] (lines 138-142) *)
Definition BatchImpl_initialize (this : loc) : St unit :=
  p ← new_ResultType;
  assign this (set__result (SharedPtr_ctor p));;
  assign this (set__in (upcast (address_of (T := zscore_Input) this m_input))).

(** [ResultPtr getResult()] (line 103) *)
Definition BatchImpl_getResult (this : loc) : St ResultPtr :=
  b ← load_Batch this; mret (_result b).

(** [virtual services::Status setResult(const ResultPtr & result)]
    (lines 115-121).  The assignment to [_result] is the update of the
    member; that the handle it replaces gives up its Result is not modelled
    (see [SharedPtr]), so nothing is stated below about the Result the
    instance held before. *)
Definition BatchImpl_setResult (this : loc) (result : ResultPtr) : St Status :=
  DAAL_CHECK (SharedPtr_bool result) ErrorNullResult (
    assign this (set__result result);;
    b ← load_Batch this;
    assign this (set__res (upcast (SharedPtr_get (_result b))));;
    mret Status_ctor).

(** *** class Batch<algorithmFPType, method> *)

(** [void initialize()] (lines 213-217) *)
Definition Batch_initialize (fp : FPType) (m : Method) (this : loc) : St unit :=
  c ← new_AlgorithmContainer fp m (address_of this m__env);
  assign this (set__ac c);;
  assign this (set__par (upcast (address_of (T := zscore_Parameter) this m_parameter))).

(** [Batch()] (line 173), after [BatchImpl()] (line 88) and the
    default constructors of the base class and of the members.  The
    members are laid out first: no constructor body reads one of them
    before its initializer has run. *)
Definition Batch_ctor (fp : FPType) (m : Method) (this : loc) : St unit :=
  construct this
    (OBatch (mk_Batch fp m Algorithm_ctor InputType_ctor SharedPtr_null
               (ParameterType_ctor fp m)));;
  BatchImpl_initialize this;;
  Batch_initialize fp m this.

(** [Batch(const Batch & other)] (line 180), after
    [BatchImpl(const BatchImpl & other)] (line 97): the base class is
    default-constructed, [input] and [parameter] are copied. *)
Definition Batch_copy_ctor (fp : FPType) (m : Method) (this : loc) (other : loc) : St unit :=
  o ← load_Batch other;
  construct this
    (OBatch (mk_Batch fp m Algorithm_ctor (input o) SharedPtr_null (parameter o)));;
  BatchImpl_initialize this;;
  Batch_initialize fp m this.

(** [virtual BaseParameter * getParameter()] (line 188) *)
Definition Batch_getParameter (fp : FPType) (m : Method) (this : loc) : St (pointer zscore_BaseParameter) :=
  mret (upcast (address_of (T := zscore_Parameter) this m_parameter)).

(** [virtual Batch * cloneImpl() const] (line 204) *)
Definition Batch_cloneImpl (fp : FPType) (m : Method) (this : loc) : St (pointer zscore_Batch) :=
  l ← operator_new ORaw;
  Batch_copy_ctor fp m l this;;
  mret (pointer_to l).

(** [SharedPtr<Batch> clone() const] (line 201) *)
Definition Batch_clone (fp : FPType) (m : Method) (this : loc) : St (SharedPtr zscore_Batch) :=
  p ← Batch_cloneImpl fp m this; mret (SharedPtr_ctor p).

(** [virtual services::Status allocateResult()] (lines 206-211) *)
Definition Batch_allocateResult (fp : FPType) (m : Method) (this : loc) : St Status :=
  b ← load_Batch this;
  s ← call_Result_allocate fp (_result b)
        (upcast (address_of (T := zscore_Input) this m_input))
        (upcast (address_of (T := zscore_Parameter) this m_parameter)) m;
  b ← load_Batch this;
  assign this (set__res (upcast (SharedPtr_get (_result b))));;
  mret s.

(** A virtual call: the override of the object's dynamic type runs. *)
Definition virtual {A} (f : FPType → Method → loc → St A) (this : loc) : St A :=
  b ← load_Batch this; f (algorithmFPType b) (method b) this.

(** [SharedPtr<BatchImpl> BatchImpl::clone() const] (line 129) *)
Definition BatchImpl_clone (this : loc) : St (SharedPtr zscore_BatchImpl) :=
  p ← virtual Batch_cloneImpl this; mret (SharedPtr_ctor (upcast p)).

(** [new Batch<fp, m>()] *)
Definition new_Batch (fp : FPType) (m : Method) : St (pointer zscore_Batch) :=
  l ← operator_new ORaw;
  Batch_ctor fp m l;;
  mret (pointer_to l).

(** *** Calls on the instances of a store *)

Inductive call :=
  | call_new (fp : FPType) (m : Method)              (* new Batch<fp, m>() *)
  | call_setResult (this : loc) (result : ResultPtr)
  | call_getResult (this : loc)
  | call_getParameter (this : loc)
  | call_clone (this : loc)
  | call_allocateResult (this : loc).

Inductive retval :=
  | ret_Batch (p : pointer zscore_Batch)
  | ret_Status (s : Status)
  | ret_ResultPtr (r : ResultPtr)
  | ret_BaseParameter (p : pointer zscore_BaseParameter)
  | ret_BatchImpl (p : SharedPtr zscore_BatchImpl).

Definition exec (c : call) : St retval :=
  match c with
  | call_new fp m => p ← new_Batch fp m; mret (ret_Batch p)
  | call_setResult this result =>
      s ← virtual (λ _ _ this, BatchImpl_setResult this result) this;
      mret (ret_Status s)
  | call_getResult this => r ← BatchImpl_getResult this; mret (ret_ResultPtr r)
  | call_getParameter this =>
      p ← virtual Batch_getParameter this; mret (ret_BaseParameter p)
  | call_clone this => p ← BatchImpl_clone this; mret (ret_BatchImpl p)
  | call_allocateResult this =>
      s ← virtual Batch_allocateResult this; mret (ret_Status s)
  end.

Fixpoint run (cs : list call) : St (list retval) :=
  match cs with
  | [] => mret []
  | c :: cs => r ← exec c; rs ← run cs; mret (r :: rs)
  end.

(** *** Specification vocabulary *)

(** The instance that a constructor of [Batch<fp, m>] leaves at [this], with
    its Result allocated at [lr] and its Container at [lc]. *)
Definition constructed (fp : FPType) (m : Method) (this lr lc : loc)
    (i : InputType) (p : ParameterType) : Batch :=
  mk_Batch fp m
    (mk_Algorithm (pointer_to lc) (address_of this m_input)
       (address_of this m_parameter) (_res Algorithm_ctor) (_env Algorithm_ctor))
    i (SharedPtr_ctor (pointer_to lr)) p.

(** The Container made for that instance. *)
Definition bound_Container (fp : FPType) (m : Method) (this : loc)
  : AlgorithmContainer Method CpuType :=
  mk_AlgorithmContainer fp m (cpuid (_env Algorithm_ctor)) (address_of this m__env).

(** The store after that construction. *)
Definition after_construction (h : heap) (fp : FPType) (m : Method)
    (this lr lc : loc) (i : InputType) (p : ParameterType) : heap :=
  <[this := OBatch (constructed fp m this lr lc i p)]>
    (<[lc := OContainer (bound_Container fp m this)]>
       (<[lr := OResult ResultType_ctor]> h)).

(** There is an instance at [l]. *)
Definition is_Batch (h : heap) (l : loc) : Prop :=
  match h !! l with Some (OBatch _) => True | _ => False end.

(** The handle owns a Result object of the store. *)
Definition live_Result (h : heap) (r : ResultPtr) : Prop :=
  match address (SharedPtr_get r) with
  | Some (whole l) => match h !! l with Some (OResult _) => True | _ => False end
  | _ => False
  end.

(** What a call needs in order to run: an instance at [this], and for
    [allocateResult] a Result object behind the instance's handle. *)
Definition pre (h : heap) (c : call) : Prop :=
  match c with
  | call_new _ _ => True
  | call_setResult this _ | call_getResult this
  | call_getParameter this | call_clone this => is_Batch h this
  | call_allocateResult this =>
      match h !! this with
      | Some (OBatch b) => live_Result h (_result b)
      | _ => False
      end
  end.

(** What a caller can ensure by itself: the call is made on an instance, and
    a handle passed to [setResult] is empty or owns a Result object. *)
Definition usable (h : heap) (c : call) : Prop :=
  match c with
  | call_new _ _ => True
  | call_setResult this result =>
      is_Batch h this ∧ (if SharedPtr_bool result then live_Result h result else True)
  | call_getResult this | call_getParameter this
  | call_clone this | call_allocateResult this => is_Batch h this
  end.

(** Each call of the sequence is usable in the store it is made in. *)
Fixpoint calls_usable (cs : list call) (h : heap) : Prop :=
  match cs with
  | [] => True
  | c :: cs =>
      usable h c ∧
      match exec c h with Some (_, h') => calls_usable cs h' | None => True end
  end.

(** Every instance of the store has a Result object behind its handle. *)
Definition Result_installed (h : heap) : Prop :=
  map_Forall (λ _ o, match o with OBatch b => live_Result h (_result b) | _ => True end) h.

(** The cached pointers of an instance at [this] point into that instance. *)
Definition coherent_members (this : loc) (b : Batch) : Prop :=
  _in (super b) = address_of this m_input ∧ _par (super b) = address_of this m_parameter.

(** The cached [_res] is the raw pointer of the Result handle. *)
Definition coherent_res (b : Batch) : Prop :=
  _res (super b) = upcast (SharedPtr_get (_result b)).

(** [_in] and [_par] of every instance of the store point into it. *)
Definition Coherent (h : heap) : Prop :=
  map_Forall (λ this o, match o with OBatch b => coherent_members this b | _ => True end) h.

(** The calls that assign [_res] from [_result] in the instance at [this]:
    [setResult] with a non-empty handle, and [allocateResult]. *)
Definition Result_touched (c : call) (this : loc) : Prop :=
  match c with
  | call_setResult t result => t = this ∧ SharedPtr_bool result = true
  | call_allocateResult t => t = this
  | _ => False
  end.

(** The instance at [l] in [h'] is a copy of [b] as a copy constructor
    makes it: same class, [input] and [parameter] equal to those of [b], and
    a Result object that is not in [h] and holds the empty Result. *)
Definition copy_of (h h' : heap) (b : Batch) (l : loc) : Prop :=
  ∃ lr b',
    h' !! l = Some (OBatch b') ∧
    algorithmFPType b' = algorithmFPType b ∧ method b' = method b ∧
    input b' = input b ∧ parameter b' = parameter b ∧
    _result b' = SharedPtr_ctor (pointer_to lr) ∧
    h !! lr = None ∧ h' !! lr = Some (OResult ResultType_ctor) ∧
    _result b' ≠ _result b.

(** Everything of an instance but its Result handle and the cached [_res]. *)
Definition config_kept (b b' : Batch) : Prop :=
  algorithmFPType b' = algorithmFPType b ∧ method b' = method b ∧
  input b' = input b ∧ parameter b' = parameter b ∧
  _ac (super b') = _ac (super b) ∧ _in (super b') = _in (super b) ∧
  _par (super b') = _par (super b) ∧ _env (super b') = _env (super b).

(** *** What a call does to the store *)

(** The result and the final store of each call, stated on the stores;
    [exec_progress] below shows that [exec] computes them. *)
Inductive exec_spec (h : heap) : call → retval → heap → Prop :=
  | es_new fp m l lr lc :
      h !! l = None → h !! lr = None → h !! lc = None →
      l ≠ lr → l ≠ lc → lr ≠ lc →
      exec_spec h (call_new fp m) (ret_Batch (pointer_to l))
        (after_construction h fp m l lr lc InputType_ctor (ParameterType_ctor fp m))
  | es_setResult_null this b result :
      h !! this = Some (OBatch b) → SharedPtr_bool result = false →
      exec_spec h (call_setResult this result)
        (ret_Status (Status_of ErrorNullResult)) h
  | es_setResult this b result :
      h !! this = Some (OBatch b) → SharedPtr_bool result = true →
      exec_spec h (call_setResult this result) (ret_Status Status_ctor)
        (<[this := OBatch (set__res (upcast (SharedPtr_get result))
                            (set__result result b))]> h)
  | es_getResult this b :
      h !! this = Some (OBatch b) →
      exec_spec h (call_getResult this) (ret_ResultPtr (_result b)) h
  | es_getParameter this b :
      h !! this = Some (OBatch b) →
      exec_spec h (call_getParameter this)
        (ret_BaseParameter (address_of this m_parameter)) h
  | es_clone this b l lr lc :
      h !! this = Some (OBatch b) →
      h !! l = None → h !! lr = None → h !! lc = None →
      l ≠ lr → l ≠ lc → lr ≠ lc →
      exec_spec h (call_clone this) (ret_BatchImpl (SharedPtr_ctor (pointer_to l)))
        (after_construction h (algorithmFPType b) (method b) l lr lc
           (input b) (parameter b))
  | es_allocateResult this b lr res :
      h !! this = Some (OBatch b) →
      _result b = SharedPtr_ctor (pointer_to lr) →
      h !! lr = Some (OResult res) →
      exec_spec h (call_allocateResult this)
        (ret_Status (Result_allocate (algorithmFPType b) (input b) (parameter b)
                       (method b) res).1)
        (<[this := OBatch (set__res (pointer_to lr) b)]>
           (<[lr := OResult (Result_allocate (algorithmFPType b) (input b)
                               (parameter b) (method b) res).2]> h)).

End interface2.

Abbreviation ResultPtr := (SharedPtr zscore_Result).
Abbreviation heap := (gmap loc object).
Abbreviation St := (M object).

(** *** Further members and vocabulary *)

Section interface2_more.
Context `{Declarations}.

(** [virtual int getMethod() const] (line 194): [(int)method].  The
    conversion of the enumeration to [int] is a parameter. *)
Definition Batch_getMethod (to_int : Method → Z) (fp : FPType) (m : Method)
    (this : loc) : St Z :=
  mret (to_int m).

(** The Container of every instance is in the store and is the one for the
    instance's own template arguments and its own Environment. *)
Definition Container_bound (h : heap) : Prop :=
  map_Forall
    (λ this o,
       match o with
       | OBatch b =>
           ∃ lc, _ac (super b) = pointer_to lc ∧
                 h !! lc = Some (OContainer
                                   (mk_AlgorithmContainer (algorithmFPType b) (method b)
                                      (cpuid (_env (super b))) (address_of this m__env)))
       | _ => True
       end) h.

(** No two instances of the store hold the same Result handle. *)
Definition Result_unshared (h : heap) : Prop :=
  ∀ l1 l2 b1 b2,
    h !! l1 = Some (OBatch b1) → h !! l2 = Some (OBatch b2) →
    _result b1 = _result b2 → l1 = l2.

(** The operations that are about the Result of the instance at [this]:
    every [setResult] and every [allocateResult] on it. *)
Definition Result_operation (c : call) (this : loc) : Prop :=
  match c with
  | call_setResult t _ | call_allocateResult t => t = this
  | _ => False
  end.

(** The calls that install no handle: all but [setResult] with a non-empty
    handle. *)
Definition installs_nothing (c : call) : Prop :=
  match c with
  | call_setResult _ result => SharedPtr_bool result = false
  | _ => True
  end.

End interface2_more.

(** *** A small instance of the declarations, for examples *)

Module Demo.

(** [defaultDense] is the default method of [Batch]. *)
Inductive zscore_Method := defaultDense | sumDense.
Inductive cpu := sse2 | avx2.

(** Input: the number of rows of the data table.  Parameter: the methods
    it is made for and a mask of results to compute, which is its base
    view.  Result: the sizes of the allocated tables, none when empty.
    [allocate] refuses an empty table and otherwise sizes one table. *)
#[export] Instance declarations : Declarations := {|
  Method := zscore_Method;
  CpuType := cpu;
  InputType := nat;
  ParameterType := zscore_Method * N;
  BaseParameter := N;
  ResultType := list nat;
  InputType_ctor := 0;
  ParameterType_ctor := λ _ m, (m, 0%N);
  ResultType_ctor := [];
  to_BaseParameter := snd;
  Result_allocate := λ _ i _ _ r,
    match i with
    | O => (Status_of ErrorInvalidInput, r)
    | S _ => (Status_ctor, [i])
    end;
  Algorithm_ctor := mk_Algorithm nullptr nullptr nullptr nullptr (mk_env avx2) |}.

(** The store after [new Batch<double, defaultDense>()] on the empty
    store: the instance at 1, its Result at 2, its Container at 3. *)
Definition instance1 : Batch :=
  constructed FP_double defaultDense 1 2 3 InputType_ctor
    (ParameterType_ctor FP_double defaultDense).

Definition store1 : heap :=
  after_construction ∅ FP_double defaultDense 1 2 3 InputType_ctor
    (ParameterType_ctor FP_double defaultDense).

(** The same with a data table of 5 rows in the input. *)
Definition instance2 : Batch :=
  mk_Batch (algorithmFPType instance1) (method instance1) (super instance1)
    5 (_result instance1) (parameter instance1).

Definition store2 : heap := <[1%positive := OBatch instance2]> store1.

(** The same after [allocateResult()]: the Result at 2 holds a table. *)
Definition instance3 : Batch := set__res (pointer_to 2) instance2.

Definition store3 : heap :=
  match Batch_allocateResult FP_double defaultDense 1 store2 with
  | Some (_, h) => h
  | None => ∅
  end.

(** A script from the empty store. *)
Definition script : list call :=
  [ call_new FP_double defaultDense;
    call_setResult 1 SharedPtr_null;
    call_allocateResult 1;
    call_clone 1;
    call_setResult 4 (SharedPtr_ctor (pointer_to 2));
    call_getParameter 4;
    call_getResult 4 ].

(** A second instance, of class [Batch<float, sumDense>], next to the one
    of [store2]: the instance at 4, its Result at 5, its Container at 6. *)
Definition instance4 : Batch :=
  constructed FP_float sumDense 4 5 6 InputType_ctor
    (ParameterType_ctor FP_float sumDense).

Definition store4 : heap :=
  after_construction store2 FP_float sumDense 4 5 6 InputType_ctor
    (ParameterType_ctor FP_float sumDense).

(** A script that passes no non-empty handle to [setResult]. *)
Definition script_without_sharing : list call :=
  [ call_new FP_double defaultDense;
    call_clone 1;
    call_allocateResult 4;
    call_setResult 1 SharedPtr_null;
    call_new FP_float sumDense;
    call_getResult 7 ].

(** [(int)method] *)
Definition int_of_Method : Method → Z :=
  λ m : zscore_Method, match m with defaultDense => 0%Z | sumDense => 1%Z end.

End Demo.

Section interface2_properties.
Context `{Declarations}.

(** ** Equations of the store operations *)

Lemma bind_eq {A B} (f : A → St B) (m : St A) (h : heap) :
  (m ≫= f) h = match m h with Some (a, h') => f a h' | None => None end.
Proof. reflexivity. Qed.

Lemma ret_eq {A} (a : A) (h : heap) : (mret a : St A) h = Some (a, h).
Proof. reflexivity. Qed.

Lemma bind_Some {A B} (f : A → St B) (m : St A) (h h' : heap) (a : A) :
  m h = Some (a, h') → (m ≫= f) h = f a h'.
Proof. intros E. rewrite bind_eq, E. reflexivity. Qed.

Lemma fresh_None (h : heap) : h !! fresh (dom h) = None.
Proof. apply not_elem_of_dom, is_fresh. Qed.

Lemma fresh_ne (h : heap) (l : loc) (o : object) :
  h !! l = Some o → fresh (dom h) ≠ l.
Proof. intros E Heq. rewrite <- Heq, fresh_None in E. discriminate. Qed.

Lemma read_eq (h : heap) l o : h !! l = Some o → read l h = Some (o, h).
Proof. unfold read. intros ->. reflexivity. Qed.

Lemma write_eq (h : heap) l o o' :
  h !! l = Some o → write l o' h = Some ((), <[l := o']> h).
Proof. unfold write. intros ->. reflexivity. Qed.

Lemma load_Batch_eq (h : heap) this b :
  h !! this = Some (OBatch b) → load_Batch this h = Some (b, h).
Proof. intros E. unfold load_Batch. rewrite (bind_Some _ _ _ _ _ (read_eq _ _ _ E)). reflexivity. Qed.

Lemma assign_eq (h : heap) this b f :
  h !! this = Some (OBatch b) →
  assign this f h = Some ((), <[this := OBatch (f b)]> h).
Proof.
  intros E. unfold assign.
  rewrite (bind_Some _ _ _ _ _ (load_Batch_eq _ _ _ E)).
  apply (write_eq _ _ _ _ E).
Qed.

Lemma construct_eq (h : heap) l o :
  h !! l = Some ORaw → construct l o h = Some ((), <[l := o]> h).
Proof.
  intros E. unfold construct.
  rewrite (bind_Some _ _ _ _ _ (read_eq _ _ _ E)).
  apply (write_eq _ _ _ _ E).
Qed.

Ltac heap_eq :=
  apply map_eq; intros ?; rewrite ?lookup_insert;
  repeat case_decide; subst; try congruence; try done.

Lemma new_ResultType_eq (h : heap) :
  new_ResultType h
  = Some (pointer_to (fresh (dom h)), <[fresh (dom h) := OResult ResultType_ctor]> h).
Proof.
  unfold new_ResultType. rewrite bind_eq. unfold operator_new. cbn zeta.
  rewrite bind_eq, construct_eq by apply lookup_insert_eq.
  rewrite insert_insert_eq. reflexivity.
Qed.

Lemma BatchImpl_initialize_eq (h : heap) this b :
  h !! this = Some (OBatch b) →
  BatchImpl_initialize this h
  = Some ((), <[this := OBatch (set__in (address_of this m_input)
                                 (set__result (SharedPtr_ctor (pointer_to (fresh (dom h)))) b))]>
                (<[fresh (dom h) := OResult ResultType_ctor]> h)).
Proof.
  intros E. unfold BatchImpl_initialize.
  rewrite (bind_Some _ _ _ _ _ (new_ResultType_eq h)).
  assert (N : fresh (dom h) ≠ this) by exact (fresh_ne _ _ _ E).
  rewrite bind_eq, (assign_eq _ _ b) by (rewrite lookup_insert_ne; done).
  rewrite (assign_eq _ _ _ _ (lookup_insert_eq _ _ _)).
  rewrite insert_insert_eq. reflexivity.
Qed.

Lemma Batch_initialize_eq (h : heap) fp m this b :
  h !! this = Some (OBatch b) →
  Batch_initialize fp m this h
  = Some ((), <[this := OBatch (set__par (address_of this m_parameter)
                                 (set__ac (pointer_to (fresh (dom h))) b))]>
                (<[fresh (dom h) :=
                     OContainer (mk_AlgorithmContainer fp m (cpuid (_env (super b)))
                                   (address_of this m__env))]> h)).
Proof.
  intros E. unfold Batch_initialize, new_AlgorithmContainer.
  assert (N : fresh (dom h) ≠ this) by exact (fresh_ne _ _ _ E).
  assert (L : load_env (address_of this m__env) h = Some (_env (super b), h)).
  { unfold load_env. cbn. rewrite (bind_Some _ _ _ _ _ (load_Batch_eq _ _ _ E)). reflexivity. }
  rewrite bind_eq, (bind_Some _ _ _ _ _ L).
  rewrite bind_eq. unfold operator_new. cbn zeta.
  rewrite bind_eq, construct_eq by apply lookup_insert_eq.
  rewrite insert_insert_eq.
  rewrite ret_eq.
  rewrite bind_eq, (assign_eq _ _ b) by (rewrite lookup_insert_ne; done).
  rewrite (assign_eq _ _ _ _ (lookup_insert_eq _ _ _)).
  rewrite insert_insert_eq. reflexivity.
Qed.

(** *** Construction *)

Lemma construction_spec (h : heap) fp m this i p :
  h !! this = Some ORaw →
  ∃ lr lc, h !! lr = None ∧ h !! lc = None ∧ lr ≠ lc ∧
    (construct this (OBatch (mk_Batch fp m Algorithm_ctor i SharedPtr_null p));;
     BatchImpl_initialize this;; Batch_initialize fp m this) h
    = Some ((), after_construction h fp m this lr lc i p).
Proof.
  intros E.
  set (b0 := mk_Batch fp m Algorithm_ctor i SharedPtr_null p).
  set (h1 := <[this := OBatch b0]> h).
  set (lr := fresh (dom h1)).
  set (b1 := set__in (address_of this m_input)
               (set__result (SharedPtr_ctor (pointer_to lr)) b0)).
  set (h2 := <[this := OBatch b1]> (<[lr := OResult ResultType_ctor]> h1)).
  set (lc := fresh (dom h2)).
  assert (E1 : h1 !! this = Some (OBatch b0)) by apply lookup_insert_eq.
  assert (E2 : h2 !! this = Some (OBatch b1)) by apply lookup_insert_eq.
  assert (Nr : lr ≠ this) by exact (fresh_ne _ _ _ E1).
  assert (Nc : lc ≠ this) by exact (fresh_ne _ _ _ E2).
  assert (Fr : h1 !! lr = None) by apply fresh_None.
  assert (Fc : h2 !! lc = None) by apply fresh_None.
  assert (Ncr : lr ≠ lc).
  { intros Heq. unfold h2 in Fc. rewrite <- Heq in Fc.
    rewrite lookup_insert_ne, lookup_insert_eq in Fc; done. }
  exists lr, lc. repeat split.
  - unfold h1 in Fr. rewrite lookup_insert_ne in Fr; done.
  - unfold h2, h1 in Fc. rewrite !lookup_insert_ne in Fc; done.
  - done.
  - rewrite bind_eq, (construct_eq _ _ _ E). fold h1.
    rewrite bind_eq, (BatchImpl_initialize_eq _ _ _ E1). fold lr b1 h2.
    rewrite (Batch_initialize_eq _ _ _ _ _ E2). fold lc.
    f_equal. f_equal. unfold after_construction, h2, h1. heap_eq.
Qed.

Lemma after_construction_this (h : heap) fp m this lr lc i p :
  after_construction h fp m this lr lc i p !! this
  = Some (OBatch (constructed fp m this lr lc i p)).
Proof. unfold after_construction. apply lookup_insert_eq. Qed.

Lemma after_construction_Container (h : heap) fp m this lr lc i p :
  lc ≠ this →
  after_construction h fp m this lr lc i p !! lc
  = Some (OContainer (bound_Container fp m this)).
Proof. intros N. unfold after_construction. rewrite lookup_insert_ne, lookup_insert_eq; done. Qed.

Lemma after_construction_Result (h : heap) fp m this lr lc i p :
  lr ≠ this → lr ≠ lc →
  after_construction h fp m this lr lc i p !! lr = Some (OResult ResultType_ctor).
Proof.
  intros N1 N2. unfold after_construction.
  do 2 (rewrite lookup_insert_ne by done). apply lookup_insert_eq.
Qed.

Lemma after_construction_other (h : heap) fp m this lr lc i p l :
  l ≠ this → l ≠ lr → l ≠ lc →
  after_construction h fp m this lr lc i p !! l = h !! l.
Proof. intros N1 N2 N3. unfold after_construction. rewrite !lookup_insert_ne; done. Qed.

Lemma Batch_ctor_spec (h : heap) fp m this :
  h !! this = Some ORaw →
  ∃ lr lc, h !! lr = None ∧ h !! lc = None ∧ lr ≠ lc ∧
    Batch_ctor fp m this h
    = Some ((), after_construction h fp m this lr lc InputType_ctor (ParameterType_ctor fp m)).
Proof. intros E. exact (construction_spec h fp m this _ _ E). Qed.

Lemma Batch_copy_ctor_spec (h : heap) fp m this other o :
  h !! this = Some ORaw → h !! other = Some (OBatch o) →
  ∃ lr lc, h !! lr = None ∧ h !! lc = None ∧ lr ≠ lc ∧
    Batch_copy_ctor fp m this other h
    = Some ((), after_construction h fp m this lr lc (input o) (parameter o)).
Proof.
  intros E Eo. unfold Batch_copy_ctor.
  rewrite (bind_Some _ _ _ _ _ (load_Batch_eq _ _ _ Eo)).
  exact (construction_spec h fp m this _ _ E).
Qed.

(** [new] of an instance: raw storage at a fresh location, then the
    constructor [ctor] on it. *)
Lemma new_instance_spec (h : heap) fp m i p (ctor : loc → St unit) :
  (∀ this, h !! this = None →
     ∃ lr lc, <[this := ORaw]> h !! lr = None ∧ <[this := ORaw]> h !! lc = None ∧ lr ≠ lc ∧
       ctor this (<[this := ORaw]> h)
       = Some ((), after_construction (<[this := ORaw]> h) fp m this lr lc i p)) →
  ∃ l lr lc, h !! l = None ∧ h !! lr = None ∧ h !! lc = None ∧
    l ≠ lr ∧ l ≠ lc ∧ lr ≠ lc ∧
    (l ← operator_new ORaw; ctor l;; mret (pointer_to (T := zscore_Batch) l)) h
    = Some (pointer_to l, after_construction h fp m l lr lc i p).
Proof.
  intros Hctor.
  set (l := fresh (dom h)).
  destruct (Hctor l (fresh_None h)) as (lr & lc & Fr & Fc & Nrc & Ector).
  assert (Nr : l ≠ lr).
  { intros ->. rewrite lookup_insert_eq in Fr. discriminate. }
  assert (Nc : l ≠ lc).
  { intros ->. rewrite lookup_insert_eq in Fc. discriminate. }
  exists l, lr, lc. repeat split; try done.
  - apply fresh_None.
  - rewrite lookup_insert_ne in Fr; done.
  - rewrite lookup_insert_ne in Fc; done.
  - rewrite bind_eq. unfold operator_new. cbn zeta. fold l.
    rewrite bind_eq, Ector, ret_eq.
    f_equal. f_equal. unfold after_construction. heap_eq.
Qed.

Lemma new_Batch_spec (h : heap) fp m :
  ∃ l lr lc, h !! l = None ∧ h !! lr = None ∧ h !! lc = None ∧
    l ≠ lr ∧ l ≠ lc ∧ lr ≠ lc ∧
    new_Batch fp m h
    = Some (pointer_to l,
            after_construction h fp m l lr lc InputType_ctor (ParameterType_ctor fp m)).
Proof.
  apply new_instance_spec. intros this _.
  apply Batch_ctor_spec, lookup_insert_eq.
Qed.

Lemma Batch_cloneImpl_spec (h : heap) fp m this b :
  h !! this = Some (OBatch b) →
  ∃ l lr lc, h !! l = None ∧ h !! lr = None ∧ h !! lc = None ∧
    l ≠ lr ∧ l ≠ lc ∧ lr ≠ lc ∧
    Batch_cloneImpl fp m this h
    = Some (pointer_to l, after_construction h fp m l lr lc (input b) (parameter b)).
Proof.
  intros E. apply new_instance_spec. intros l Fl.
  apply Batch_copy_ctor_spec; [apply lookup_insert_eq |].
  rewrite lookup_insert_ne; [done | congruence].
Qed.

(** *** The other member functions *)

Lemma BatchImpl_getResult_eq (h : heap) this b :
  h !! this = Some (OBatch b) →
  BatchImpl_getResult this h = Some (_result b, h).
Proof.
  intros E. unfold BatchImpl_getResult.
  rewrite (bind_Some _ _ _ _ _ (load_Batch_eq _ _ _ E)). reflexivity.
Qed.

Lemma BatchImpl_setResult_null (h : heap) this (result : ResultPtr) :
  SharedPtr_bool result = false →
  BatchImpl_setResult this result h = Some (Status_of ErrorNullResult, h).
Proof. intros Hn. unfold BatchImpl_setResult, DAAL_CHECK. rewrite Hn. reflexivity. Qed.

Lemma BatchImpl_setResult_eq (h : heap) this b (result : ResultPtr) :
  h !! this = Some (OBatch b) → SharedPtr_bool result = true →
  BatchImpl_setResult this result h
  = Some (Status_ctor,
          <[this := OBatch (set__res (upcast (SharedPtr_get result)) (set__result result b))]> h).
Proof.
  intros E Hn. unfold BatchImpl_setResult, DAAL_CHECK. rewrite Hn.
  rewrite bind_eq, (assign_eq _ _ _ _ E).
  rewrite (bind_Some _ _ _ _ _ (load_Batch_eq _ _ _ (lookup_insert_eq _ _ _))).
  rewrite bind_eq, (assign_eq _ _ _ _ (lookup_insert_eq _ _ _)), ret_eq.
  rewrite insert_insert_eq. reflexivity.
Qed.

Lemma Batch_allocateResult_eq (h : heap) fp m this b lr res :
  h !! this = Some (OBatch b) →
  _result b = SharedPtr_ctor (pointer_to lr) →
  h !! lr = Some (OResult res) →
  Batch_allocateResult fp m this h
  = Some ((Result_allocate fp (input b) (parameter b) m res).1,
          <[this := OBatch (set__res (pointer_to lr) b)]>
            (<[lr := OResult (Result_allocate fp (input b) (parameter b) m res).2]> h)).
Proof.
  intros E Er El.
  assert (N : lr ≠ this) by congruence.
  unfold Batch_allocateResult.
  rewrite (bind_Some _ _ _ _ _ (load_Batch_eq _ _ _ E)).
  unfold call_Result_allocate. rewrite Er.
  assert (L1 : load_Result (SharedPtr_get (SharedPtr_ctor (pointer_to lr))) h
               = Some ((lr, res), h)).
  { unfold load_Result. cbn. rewrite (bind_Some _ _ _ _ _ (read_eq _ _ _ El)). reflexivity. }
  assert (L2 : load_Input (upcast (address_of (T := zscore_Input) this m_input)) h
               = Some (input b, h)).
  { unfold load_Input. cbn. rewrite (bind_Some _ _ _ _ _ (load_Batch_eq _ _ _ E)). reflexivity. }
  assert (L3 : load_Parameter (upcast (address_of (T := zscore_Parameter) this m_parameter)) h
               = Some (parameter b, h)).
  { unfold load_Parameter. cbn. rewrite (bind_Some _ _ _ _ _ (load_Batch_eq _ _ _ E)). reflexivity. }
  rewrite bind_eq, (bind_Some _ _ _ _ _ L1).
  rewrite (bind_Some _ _ _ _ _ L2), (bind_Some _ _ _ _ _ L3).
  rewrite bind_eq, (write_eq _ _ _ _ El), ret_eq.
  assert (E' : <[lr := OResult (Result_allocate fp (input b) (parameter b) m res).2]> h !! this
               = Some (OBatch b)) by (rewrite lookup_insert_ne; done).
  rewrite (bind_Some _ _ _ _ _ (load_Batch_eq _ _ _ E')).
  rewrite bind_eq, (assign_eq _ _ _ _ E'), ret_eq, Er. reflexivity.
Qed.

Lemma virtual_eq {A} (f : FPType → Method → loc → St A) (h : heap) this b :
  h !! this = Some (OBatch b) →
  virtual f this h = f (algorithmFPType b) (method b) this h.
Proof.
  intros E. unfold virtual.
  rewrite (bind_Some _ _ _ _ _ (load_Batch_eq _ _ _ E)). reflexivity.
Qed.

Lemma is_Batch_inv (h : heap) l : is_Batch h l → ∃ b, h !! l = Some (OBatch b).
Proof. unfold is_Batch. destruct (h !! l) as [[]|]; try done. eauto. Qed.

Lemma live_Result_inv (h : heap) (r : ResultPtr) :
  live_Result h r →
  ∃ l res, r = SharedPtr_ctor (pointer_to l) ∧ h !! l = Some (OResult res).
Proof.
  unfold live_Result. destruct r as [[[[l|]|]]]; cbn; try done.
  destruct (h !! l) as [[]|] eqn:E; try done. eauto.
Qed.

Lemma live_Result_intro (h : heap) l res :
  h !! l = Some (OResult res) → live_Result h (SharedPtr_ctor (pointer_to l)).
Proof. intros E. unfold live_Result. cbn. rewrite E. done. Qed.

Lemma live_Result_nonempty (h : heap) (r : ResultPtr) :
  live_Result h r → SharedPtr_bool r = true.
Proof. intros (l & res & -> & _)%live_Result_inv. reflexivity. Qed.

Lemma exec_progress (h : heap) (c : call) :
  pre h c → ∃ r h', exec c h = Some (r, h') ∧ exec_spec h c r h'.
Proof.
  destruct c as [fp m | this result | this | this | this | this]; cbn [pre exec].
  - intros _. destruct (new_Batch_spec h fp m) as (l & lr & lc & ? & ? & ? & ? & ? & ? & E).
    eexists _, _. rewrite (bind_Some _ _ _ _ _ E), ret_eq. split; [done |].
    by constructor.
  - intros [b E]%is_Batch_inv. rewrite bind_eq, (virtual_eq _ _ _ _ E).
    destruct (SharedPtr_bool result) eqn:Hn.
    + rewrite (BatchImpl_setResult_eq _ _ _ _ E Hn), ret_eq.
      eexists _, _. split; [done |]. by constructor.
    + rewrite (BatchImpl_setResult_null _ _ _ Hn), ret_eq.
      eexists _, _. split; [done |]. by econstructor.
  - intros [b E]%is_Batch_inv.
    rewrite (bind_Some _ _ _ _ _ (BatchImpl_getResult_eq _ _ _ E)), ret_eq.
    eexists _, _. split; [done |]. by constructor.
  - intros [b E]%is_Batch_inv. rewrite bind_eq, (virtual_eq _ _ _ _ E).
    unfold Batch_getParameter. rewrite !ret_eq.
    eexists _, _. split; [done |]. by econstructor.
  - intros [b E]%is_Batch_inv. unfold BatchImpl_clone.
    destruct (Batch_cloneImpl_spec h (algorithmFPType b) (method b) this b E)
      as (l & lr & lc & ? & ? & ? & ? & ? & ? & Ec).
    rewrite bind_eq, bind_eq, (virtual_eq _ _ _ _ E), Ec, !ret_eq.
    eexists _, _. split; [done |]. by constructor.
  - destruct (h !! this) as [[| | | b]|] eqn:E; try done.
    intros (lr & res & Er & El)%live_Result_inv.
    rewrite bind_eq, (virtual_eq _ _ _ _ E).
    rewrite (Batch_allocateResult_eq _ _ _ _ _ _ _ E Er El), ret_eq.
    eexists _, _. split; [done |]. by constructor.
Qed.

(** *** Frame properties of a call *)

Ltac lookup_split H :=
  repeat (rewrite lookup_insert in H; case_decide; subst); simplify_eq.

Lemma config_kept_refl (b : Batch) : config_kept b b.
Proof. by repeat split. Qed.

Lemma exec_spec_Result_kept (h h' : heap) c r l res :
  exec_spec h c r h' → h !! l = Some (OResult res) →
  ∃ res', h' !! l = Some (OResult res').
Proof.
  intros Hs El. destruct Hs; eauto.
  - rewrite after_construction_other by congruence. eauto.
  - rewrite lookup_insert_ne by congruence. eauto.
  - rewrite after_construction_other by congruence. eauto.
  - rewrite lookup_insert_ne by congruence.
    rewrite lookup_insert. case_decide; eauto.
Qed.

Lemma exec_spec_live (h h' : heap) c r (x : ResultPtr) :
  exec_spec h c r h' → live_Result h x → live_Result h' x.
Proof.
  intros Hs (l & res & -> & El)%live_Result_inv.
  destruct (exec_spec_Result_kept _ _ _ _ _ _ Hs El) as [res' E'].
  exact (live_Result_intro _ _ _ E').
Qed.

Lemma exec_spec_Container_kept (h h' : heap) c r l k :
  exec_spec h c r h' → h !! l = Some (OContainer k) → h' !! l = Some (OContainer k).
Proof.
  intros Hs El. destruct Hs; eauto.
  - rewrite after_construction_other by congruence. done.
  - rewrite lookup_insert_ne by congruence. done.
  - rewrite after_construction_other by congruence. done.
  - rewrite !lookup_insert_ne by congruence. done.
Qed.

(** An instance of the store after a call is an instance of the store
    before it, with the same configuration, or the one the call constructed. *)
Lemma exec_spec_instance (h h' : heap) c r l b' :
  exec_spec h c r h' → h' !! l = Some (OBatch b') →
  (∃ b, h !! l = Some (OBatch b) ∧ config_kept b b' ∧
        ((_result b' = _result b ∧ _res (super b') = _res (super b)) ∨
         (_result b' = _result b ∧ c = call_allocateResult l ∧ coherent_res b') ∨
         (c = call_setResult l (_result b') ∧ SharedPtr_bool (_result b') = true ∧
          coherent_res b')))
  ∨ (h !! l = None ∧
     ∃ fp m lr lc i p,
       b' = constructed fp m l lr lc i p ∧
       h !! lr = None ∧ h' !! lr = Some (OResult ResultType_ctor) ∧
       h !! lc = None ∧ h' !! lc = Some (OContainer (bound_Container fp m l))).
Proof.
  intros Hs El. destruct Hs.
  - unfold after_construction in El. lookup_split El.
    + right. split; [done |]. eexists _, _, lr, lc, _, _.
      split; [done |]. repeat split; try done.
      * by apply after_construction_Result.
      * by apply after_construction_Container.
    + left. exists b'. split; [done |]. split; [apply config_kept_refl | by left].
  - left. exists b'. split; [done |]. split; [apply config_kept_refl | by left].
  - lookup_split El.
    + left. exists b. split; [done |]. split; [by repeat split |].
      right. right. by repeat split.
    + left. exists b'. split; [done |]. split; [apply config_kept_refl | by left].
  - left. exists b'. split; [done |]. split; [apply config_kept_refl | by left].
  - left. exists b'. split; [done |]. split; [apply config_kept_refl | by left].
  - unfold after_construction in El. lookup_split El.
    + right. split; [done |]. eexists _, _, lr, lc, _, _.
      split; [done |]. repeat split; try done.
      * by apply after_construction_Result.
      * by apply after_construction_Container.
    + left. exists b'. split; [done |]. split; [apply config_kept_refl | by left].
  - lookup_split El.
    + left. exists b. split; [done |]. split; [by repeat split |].
      right. left. split; [done |]. split; [done |]. unfold coherent_res. cbn.
      match goal with H : _result b = _ |- _ => rewrite H end. reflexivity.
    + left. exists b'. split; [done |]. split; [apply config_kept_refl | by left].
Qed.

Lemma exec_spec_instance_kept (h h' : heap) c r l b :
  exec_spec h c r h' → h !! l = Some (OBatch b) →
  ∃ b', h' !! l = Some (OBatch b').
Proof.
  intros Hs El. destruct Hs; eauto.
  - rewrite after_construction_other by congruence. eauto.
  - rewrite lookup_insert. case_decide; eauto.
  - rewrite after_construction_other by congruence. eauto.
  - rewrite lookup_insert. case_decide; eauto.
    rewrite lookup_insert_ne by congruence. eauto.
Qed.

(** *** Invariants *)

Lemma usable_pre (h : heap) c : Result_installed h → usable h c → pre h c.
Proof.
  intros Hi. destruct c; cbn; try tauto.
  intros [b E]%is_Batch_inv. rewrite E.
  exact (map_Forall_lookup_1 _ _ _ _ Hi E).
Qed.

Lemma exec_spec_Result_installed (h h' : heap) c r :
  Result_installed h → usable h c → exec_spec h c r h' → Result_installed h'.
Proof.
  intros Hi Hu Hs. apply map_Forall_lookup. intros l [| | |b'] El; try done.
  destruct (exec_spec_instance _ _ _ _ _ _ Hs El)
    as [(b & Eb & _ & [[Er _] | [(Er & _) | (-> & Hne & _)]])
       | (_ & fp & m & lr & lc & i & p & -> & _ & Er & _)].
  - rewrite Er. apply (exec_spec_live _ _ _ _ _ Hs).
    exact (map_Forall_lookup_1 _ _ _ _ Hi Eb).
  - rewrite Er. apply (exec_spec_live _ _ _ _ _ Hs).
    exact (map_Forall_lookup_1 _ _ _ _ Hi Eb).
  - apply (exec_spec_live _ _ _ _ _ Hs).
    cbn in Hu. rewrite Hne in Hu. tauto.
  - exact (live_Result_intro _ _ _ Er).
Qed.

Lemma exec_spec_Coherent (h h' : heap) c r :
  Coherent h → exec_spec h c r h' → Coherent h'.
Proof.
  intros Hc Hs. apply map_Forall_lookup. intros l [| | |b'] El; try done.
  destruct (exec_spec_instance _ _ _ _ _ _ Hs El)
    as [(b & Eb & Hk & _) | (_ & fp & m & lr & lc & i & p & -> & _)].
  - destruct Hk as (_ & _ & _ & _ & _ & Hin & Hpar & _).
    pose proof (map_Forall_lookup_1 _ _ _ _ Hc Eb) as [H1 H2].
    split; congruence.
  - by split.
Qed.

(** ** The claims on [zscore_v2.h] *)

(** C1. [setResult(result)] on an instance: with an empty handle it returns
    the Status holding [ErrorNullResult] and leaves the store, hence the
    instance's Result handle and its cached [_res], as they were; with a
    non-empty handle it installs [result] as the instance's handle, sets
    [_res] to [result.get()], changes no other member of the instance and
    returns the empty Status. *)
Theorem setResult_contract (h : heap) (this : loc) (b : Batch) (result : ResultPtr) :
  h !! this = Some (OBatch b) →
  ∃ s h' b',
    BatchImpl_setResult this result h = Some (s, h') ∧
    h' !! this = Some (OBatch b') ∧
    if SharedPtr_bool result
    then s = Status_ctor ∧ Status_ok s = true ∧
         _result b' = result ∧
         _res (super b') = upcast (SharedPtr_get result) ∧
         config_kept b b'
    else s = Status_of ErrorNullResult ∧ h' = h ∧
         _result b' = _result b ∧ _res (super b') = _res (super b).
Proof.
  intros E. destruct (SharedPtr_bool result) eqn:Hn.
  - eexists _, _, _. split; [exact (BatchImpl_setResult_eq _ _ _ _ E Hn) |].
    split; [apply lookup_insert_eq |].
    repeat split; done.
  - exists (Status_of ErrorNullResult), h, b.
    split; [exact (BatchImpl_setResult_null _ _ _ Hn) | done].
Qed.

(** C2. [clone()] gives a new instance of the class of its source whose
    [input] and [parameter] are those of the source and whose Result is a
    new object, holding the empty Result, other than the source's; the
    source and the content of every Result object are left as they were,
    whatever the source's Result holds at that time.  Copy construction on
    raw storage does the same. *)
Theorem clone_fresh_Result (h : heap) (this : loc) (b : Batch) :
  h !! this = Some (OBatch b) → live_Result h (_result b) →
  (∃ l h',
     BatchImpl_clone this h = Some (SharedPtr_ctor (pointer_to l), h') ∧
     Batch_clone (algorithmFPType b) (method b) this h
       = Some (SharedPtr_ctor (pointer_to l), h') ∧
     h !! l = None ∧ copy_of h h' b l ∧ h' !! this = Some (OBatch b) ∧
     ∀ x res, h !! x = Some (OResult res) → h' !! x = Some (OResult res))
  ∧ (∀ l, h !! l = Some ORaw →
     ∃ h',
       Batch_copy_ctor (algorithmFPType b) (method b) l this h = Some ((), h') ∧
       copy_of h h' b l ∧ h' !! this = Some (OBatch b) ∧
       ∀ x res, h !! x = Some (OResult res) → h' !! x = Some (OResult res)).
Proof.
  intros E (lr0 & res0 & Er0 & El0)%live_Result_inv.
  assert (Hcopy : ∀ l lr lc, h !! lr = None → l ≠ lr → lr ≠ lc →
            copy_of h (after_construction h (algorithmFPType b) (method b) l lr lc
                         (input b) (parameter b)) b l).
  { intros l lr lc Fr N1 N2.
    exists lr, (constructed (algorithmFPType b) (method b) l lr lc (input b) (parameter b)).
    split; [apply after_construction_this |]. repeat split; try done.
    - by apply after_construction_Result.
    - rewrite Er0. cbn. intros [= ->]. congruence. }
  split.
  - destruct (Batch_cloneImpl_spec h (algorithmFPType b) (method b) this b E)
      as (l & lr & lc & Fl & Fr & Fc & N1 & N2 & N3 & Ec).
    eexists l, _. unfold BatchImpl_clone, Batch_clone.
    rewrite bind_eq, (virtual_eq _ _ _ _ E), bind_eq, Ec, !ret_eq.
    split; [done |]. split; [done |]. split; [done |].
    split; [apply Hcopy; auto |].
    split; [rewrite after_construction_other by congruence; done |].
    intros x res Ex. rewrite after_construction_other by congruence. done.
  - intros l Fl.
    destruct (Batch_copy_ctor_spec h (algorithmFPType b) (method b) l this b Fl E)
      as (lr & lc & Fr & Fc & N3 & Ec).
    assert (N1 : l ≠ lr) by congruence.
    assert (N2 : l ≠ lc) by congruence.
    eexists. split; [exact Ec |].
    split; [apply Hcopy; auto |].
    split; [rewrite after_construction_other by congruence; done |].
    intros x res Ex. rewrite after_construction_other by congruence. done.
Qed.

(** C4. The Container of an instance is created by its construction, once,
    for the template arguments of the instance and the CPU tier of its own
    Environment: a constructing call ([new], [clone]) adds exactly one
    Container to the store and binds the new instance to it.  No call
    changes the [_ac] of an instance that exists, nor any Container, and the
    other calls create no Container. *)
Theorem container_bound_at_construction (h : heap) (c : call) :
  pre h c →
  ∃ r h',
    exec c h = Some (r, h') ∧
    (∀ this b, h !! this = Some (OBatch b) →
       ∃ b', h' !! this = Some (OBatch b') ∧ _ac (super b') = _ac (super b)) ∧
    (∀ l k, h !! l = Some (OContainer k) → h' !! l = Some (OContainer k)) ∧
    match c with
    | call_new _ _ | call_clone _ =>
        ∃ l lc b', (r = ret_Batch (pointer_to l) ∨
                    r = ret_BatchImpl (SharedPtr_ctor (pointer_to l))) ∧
          h !! l = None ∧ h !! lc = None ∧
          h' !! l = Some (OBatch b') ∧ _ac (super b') = pointer_to lc ∧
          h' !! lc = Some (OContainer
                             (mk_AlgorithmContainer (algorithmFPType b') (method b')
                                (cpuid (_env (super b'))) (address_of l m__env))) ∧
          (match c with
           | call_new fp m => algorithmFPType b' = fp ∧ method b' = m
           | _ => True
           end) ∧
          ∀ x k, h' !! x = Some (OContainer k) → x = lc ∨ h !! x = Some (OContainer k)
    | _ => ∀ x k, h' !! x = Some (OContainer k) → h !! x = Some (OContainer k)
    end.
Proof.
  intros Hp. destruct (exec_progress h c Hp) as (r & h' & Ex & Hs).
  exists r, h'. split; [done |]. split; [| split].
  - intros this b Eb.
    destruct (exec_spec_instance_kept _ _ _ _ _ _ Hs Eb) as [b' Eb'].
    exists b'. split; [done |].
    destruct (exec_spec_instance _ _ _ _ _ _ Hs Eb')
      as [(b0 & Eb0 & Hk & _) | (Fl & _)]; [| congruence].
    assert (b0 = b) as -> by congruence.
    by destruct Hk as (_ & _ & _ & _ & Hac & _).
  - intros l k. exact (exec_spec_Container_kept _ _ _ _ _ _ Hs).
  - destruct Hs; try (intros x k Ex'; lookup_split Ex'; done).
    + exists l, lc, (constructed fp m l lr lc InputType_ctor (ParameterType_ctor fp m)).
      split; [by left |]. split; [done |]. split; [done |].
      split; [apply after_construction_this |]. split; [done |].
      split; [by apply after_construction_Container |]. split; [done |].
      intros x k Ex'. unfold after_construction in Ex'. lookup_split Ex'; auto.
    + exists l, lc, (constructed (algorithmFPType b) (method b) l lr lc
                       (input b) (parameter b)).
      split; [by right |]. split; [done |]. split; [done |].
      split; [apply after_construction_this |]. split; [done |].
      split; [by apply after_construction_Container |]. split; [done |].
      intros x k Ex'. unfold after_construction in Ex'. lookup_split Ex'; auto.
Qed.

(** C5. [allocateResult()] of [Batch<fp, m>] calls [allocate<fp>] of the
    Result behind the instance's handle with the instance's own [input],
    its own [parameter] and [m]; it stores what that call makes of the
    Result, sets [_res] to [_result.get()] and returns the Status of that
    call.  Through the virtual call, [fp] and [m] are those of the
    instance. *)
Theorem allocateResult_contract (h : heap) (fp : FPType) (m : Method)
    (this : loc) (b : Batch) (lr : loc) (res : ResultType) :
  h !! this = Some (OBatch b) →
  _result b = SharedPtr_ctor (pointer_to lr) →
  h !! lr = Some (OResult res) →
  (∃ h' b',
     Batch_allocateResult fp m this h
       = Some ((Result_allocate fp (input b) (parameter b) m res).1, h') ∧
     h' !! lr = Some (OResult (Result_allocate fp (input b) (parameter b) m res).2) ∧
     h' !! this = Some (OBatch b') ∧
     _res (super b') = upcast (SharedPtr_get (_result b')) ∧
     _result b' = _result b ∧ config_kept b b' ∧
     ∀ l, l ≠ this → l ≠ lr → h' !! l = h !! l)
  ∧ virtual Batch_allocateResult this h
    = Batch_allocateResult (algorithmFPType b) (method b) this h.
Proof.
  intros E Er El. split; [| exact (virtual_eq _ _ _ _ E)].
  assert (N : lr ≠ this) by congruence.
  eexists _, _. split; [exact (Batch_allocateResult_eq _ _ _ _ _ _ _ E Er El) |].
  split; [rewrite lookup_insert_ne, lookup_insert_eq; done |].
  split; [apply lookup_insert_eq |].
  split; [cbn; by rewrite Er |]. split; [done |]. split; [by repeat split |].
  intros l N1 N2. rewrite !lookup_insert_ne; done.
Qed.

(** C6. [getResult()] returns the instance's Result handle as it is and
    leaves the store as it is, whatever the handle refers to: nothing is
    asked of the Result object, so an instance whose Result was never
    allocated answers the same way. *)
Theorem getResult_as_is (h : heap) (this : loc) (b : Batch) :
  h !! this = Some (OBatch b) →
  BatchImpl_getResult this h = Some (_result b, h) ∧
  exec (call_getResult this) h = Some (ret_ResultPtr (_result b), h).
Proof.
  intros E. pose proof (BatchImpl_getResult_eq _ _ _ E) as G.
  split; [done |]. cbn [exec]. rewrite (bind_Some _ _ _ _ _ G). reflexivity.
Qed.

(** C7. For all template arguments, [getParameter()] returns the address of
    the instance's own [parameter] member as a pointer to [BaseParameter],
    leaves the store as it is, and what is read through that pointer is the
    base view of [parameter]. *)
Theorem getParameter_base_view (h : heap) (fp : FPType) (m : Method)
    (this : loc) (b : Batch) :
  h !! this = Some (OBatch b) →
  Batch_getParameter fp m this h
    = Some (upcast (address_of (T := zscore_Parameter) this m_parameter), h) ∧
  virtual Batch_getParameter this h
    = Some (upcast (address_of (T := zscore_Parameter) this m_parameter), h) ∧
  address (upcast (U := zscore_BaseParameter)
             (address_of (T := zscore_Parameter) this m_parameter))
    = Some (member_of this m_parameter) ∧
  load_BaseParameter (upcast (address_of (T := zscore_Parameter) this m_parameter)) h
    = Some (to_BaseParameter (parameter b), h).
Proof.
  intros E. split; [reflexivity |]. split; [by rewrite (virtual_eq _ _ _ _ E) |].
  split; [reflexivity |].
  unfold load_BaseParameter. cbn.
  rewrite (bind_Some _ _ _ _ _ (load_Batch_eq _ _ _ E)). reflexivity.
Qed.

(** C8. In a store where every instance has a Result object behind its
    handle (the empty store is one), every sequence of calls ([new],
    [setResult], [getResult], [getParameter], [clone], [allocateResult]) made
    on instances, with handles that are empty or own a Result, runs to its
    end and leaves such a store: [getResult()] on any instance then returns a
    non-empty handle. *)
Theorem Result_handle_never_empty (cs : list call) (h : heap) :
  Result_installed h → calls_usable cs h →
  ∃ rs h',
    run cs h = Some (rs, h') ∧ Result_installed h' ∧
    ∀ this, is_Batch h' this →
      ∃ r, BatchImpl_getResult this h' = Some (r, h') ∧ SharedPtr_bool r = true.
Proof.
  revert h. induction cs as [| c cs IH]; intros h Hi Hu.
  - exists [], h. split; [done |]. split; [done |].
    intros this [b E]%is_Batch_inv. exists (_result b).
    split; [exact (BatchImpl_getResult_eq _ _ _ E) |].
    exact (live_Result_nonempty _ _ (map_Forall_lookup_1 _ _ _ _ Hi E)).
  - destruct Hu as [Hu Hrest].
    destruct (exec_progress h c (usable_pre _ _ Hi Hu)) as (r & h1 & Ex & Hs).
    rewrite Ex in Hrest.
    destruct (IH h1 (exec_spec_Result_installed _ _ _ _ Hi Hu Hs) Hrest)
      as (rs & h' & Er & Hi' & Hg).
    exists (r :: rs), h'. split; [| done].
    cbn [run]. rewrite (bind_Some _ _ _ _ _ Ex), (bind_Some _ _ _ _ _ Er). reflexivity.
Qed.

(** C9, as amended. Every call keeps the cached pointers coherent: in a
    store where [_in] and [_par] of every instance point to the instance's
    own [input] and [parameter], they still do after the call, for the
    instances that existed and for the one a constructing call made.
    [_res] equals [_result.get()] in the instance on which [allocateResult]
    ran or [setResult] was called with a non-empty handle; [setResult] with
    an empty handle leaves the store, so [_result] and [_res], as it was; and
    where [_res] equalled [_result.get()] before a call it does after it.
    The instance made by [clone] is at another location than its source, its
    [_in] and [_par] are into itself, and its [_res] is what the base
    constructor left, not a copy of the source's. *)
Theorem cached_pointers_coherent (h : heap) (c : call) :
  Coherent h → pre h c →
  ∃ r h',
    exec c h = Some (r, h') ∧ Coherent h' ∧
    (∀ t b', h' !! t = Some (OBatch b') → Result_touched c t → coherent_res b') ∧
    (∀ t result, c = call_setResult t result → SharedPtr_bool result = false →
       r = ret_Status (Status_of ErrorNullResult) ∧ h' = h) ∧
    (∀ t b b', h !! t = Some (OBatch b) → h' !! t = Some (OBatch b') →
       coherent_res b → coherent_res b') ∧
    (∀ src, c = call_clone src →
       ∃ l b', r = ret_BatchImpl (SharedPtr_ctor (pointer_to l)) ∧ l ≠ src ∧
         h' !! l = Some (OBatch b') ∧ coherent_members l b' ∧
         _res (super b') = _res Algorithm_ctor).
Proof.
  intros Hc Hp. destruct (exec_progress h c Hp) as (r & h' & Ex & Hs).
  exists r, h'. split; [done |]. split; [exact (exec_spec_Coherent _ _ _ _ Hc Hs) |].
  split; [| split; [| split]].
  - intros t b' Eb' Ht. destruct Hs as [| this b result Eb Hn | this b result Eb Hn
                                        | | | | this b lr res Eb Er El];
      cbn in Ht; try done.
    + destruct Ht as [_ Ht]. congruence.
    + destruct Ht as [<- _]. rewrite lookup_insert_eq in Eb'.
      injection Eb' as <-. reflexivity.
    + subst t. rewrite lookup_insert_eq in Eb'. injection Eb' as <-.
      unfold coherent_res. cbn. rewrite Er. reflexivity.
  - intros t result -> Hn. inversion Hs; subst; [done | congruence].
  - intros t b b' Eb Eb' Hco.
    destruct (exec_spec_instance _ _ _ _ _ _ Hs Eb')
      as [(b0 & Eb0 & _ & [[Er Hres] | [(_ & _ & Hco') | (_ & _ & Hco')]]) | (Fl & _)];
      try done; [| congruence].
    assert (b0 = b) as -> by congruence.
    unfold coherent_res in *. by rewrite Er, Hres.
  - intros src ->. inversion Hs; subst.
    eexists l, _. split; [done |]. split; [congruence |].
    split; [apply after_construction_this | by split].
Qed.

End interface2_properties.

(** ** How the members compose *)

Section interface2_compositions.
Context `{Declarations}.

Ltac lookup_split H :=
  repeat (rewrite lookup_insert in H; case_decide; subst); simplify_eq.

Lemma handle_inj (l1 l2 : loc) :
  SharedPtr_ctor (T := zscore_Result) (pointer_to l1) = SharedPtr_ctor (pointer_to l2) →
  l1 = l2.
Proof. by intros [= ->]. Qed.

Lemma load_Result_handle (h : heap) (l : loc) (res : ResultType) :
  h !! l = Some (OResult res) →
  load_Result (SharedPtr_get (SharedPtr_ctor (pointer_to l))) h = Some ((l, res), h).
Proof.
  intros E. unfold load_Result. cbn.
  rewrite (bind_Some _ _ _ _ _ (read_eq _ _ _ E)). reflexivity.
Qed.

(** A call constructs at most one instance. *)
Lemma exec_spec_new_unique (h h' : heap) c r l1 l2 b1 b2 :
  exec_spec h c r h' →
  h' !! l1 = Some (OBatch b1) → h !! l1 = None →
  h' !! l2 = Some (OBatch b2) → h !! l2 = None → l1 = l2.
Proof.
  intros Hs E1 F1 E2 F2. destruct Hs; try congruence.
  - unfold after_construction in E1, E2. lookup_split E1; lookup_split E2; congruence.
  - lookup_split E1; congruence.
  - unfold after_construction in E1, E2. lookup_split E1; lookup_split E2; congruence.
  - lookup_split E1; congruence.
Qed.

(** A run keeps what every usable call keeps. *)
Lemma run_invariant (Inv : heap → Prop) (P : call → Prop) :
  (∀ h c r h', Result_installed h → Inv h → usable h c → P c →
               exec_spec h c r h' → Inv h') →
  ∀ cs h, Result_installed h → Inv h → calls_usable cs h → Forall P cs →
    ∃ rs h', run cs h = Some (rs, h') ∧ Result_installed h' ∧ Inv h'.
Proof.
  intros Hstep cs. induction cs as [| c cs IH]; intros h Hi Hinv Hu HP.
  - exists [], h. done.
  - destruct Hu as [Hu Hrest]. apply Forall_cons in HP as [Hc HP].
    destruct (exec_progress h c (usable_pre _ _ Hi Hu)) as (r & h1 & Ex & Hs).
    rewrite Ex in Hrest.
    destruct (IH h1 (exec_spec_Result_installed _ _ _ _ Hi Hu Hs)
                (Hstep _ _ _ _ Hi Hinv Hu Hc Hs) Hrest HP)
      as (rs & h' & Er & Hi' & Hinv').
    exists (r :: rs), h'. split; [| done].
    cbn [run]. rewrite (bind_Some _ _ _ _ _ Ex), (bind_Some _ _ _ _ _ Er). reflexivity.
Qed.

(** Construction does not assign [_res]: of two instances constructed one
    after the other, at most one can have [_res] equal to [_result.get()],
    whatever the base constructor leaves in [_res]. *)
Lemma construction_leaves_res (h : heap) (fp fp' : FPType) (m m' : Method) :
  ∃ l1 l2 h2 b1 b2,
    (p1 ← new_Batch fp m; p2 ← new_Batch fp' m'; mret (p1, p2)) h
    = Some ((pointer_to l1, pointer_to l2), h2) ∧
    h2 !! l1 = Some (OBatch b1) ∧ h2 !! l2 = Some (OBatch b2) ∧
    ¬ (coherent_res b1 ∧ coherent_res b2).
Proof.
  destruct (new_Batch_spec h fp m)
    as (l1 & lr1 & lc1 & Fl1 & Fr1 & Fc1 & N1 & N2 & N3 & E1).
  set (h1 := after_construction h fp m l1 lr1 lc1 InputType_ctor (ParameterType_ctor fp m)).
  destruct (new_Batch_spec h1 fp' m')
    as (l2 & lr2 & lc2 & Fl2 & Fr2 & Fc2 & N1' & N2' & N3' & E2).
  assert (El1 : h1 !! l1 = Some (OBatch (constructed fp m l1 lr1 lc1 InputType_ctor
                                           (ParameterType_ctor fp m))))
    by apply after_construction_this.
  assert (Er1 : h1 !! lr1 = Some (OResult ResultType_ctor))
    by (apply after_construction_Result; done).
  exists l1, l2. eexists _, _, _.
  split.
  { rewrite (bind_Some _ _ _ _ _ E1). fold h1.
    rewrite (bind_Some _ _ _ _ _ E2). reflexivity. }
  split; [rewrite after_construction_other by congruence; exact El1 |].
  split; [apply after_construction_this |].
  unfold coherent_res. cbn. intros [R1 R2]. rewrite R1 in R2.
  injection R2 as ->. congruence.
Qed.

(** X1. [setResult(result)] then [getResult()]: the handle read back is
    [result] when [result] is non-empty, and the handle the instance had
    before when [result] is empty. *)
Theorem setResult_getResult (h : heap) (this : loc) (b : Batch) (result : ResultPtr) :
  h !! this = Some (OBatch b) →
  ∃ h',
    (s ← BatchImpl_setResult this result;
     g ← BatchImpl_getResult this;
     mret (s, g)) h
    = Some ((if SharedPtr_bool result then Status_ctor else Status_of ErrorNullResult,
             if SharedPtr_bool result then result else _result b), h').
Proof.
  intros E. destruct (SharedPtr_bool result) eqn:Hn.
  - eexists.
    rewrite (bind_Some _ _ _ _ _ (BatchImpl_setResult_eq _ _ _ _ E Hn)).
    rewrite (bind_Some _ _ _ _ _ (BatchImpl_getResult_eq _ _ _ (lookup_insert_eq _ _ _))).
    reflexivity.
  - exists h.
    rewrite (bind_Some _ _ _ _ _ (BatchImpl_setResult_null _ _ _ Hn)).
    rewrite (bind_Some _ _ _ _ _ (BatchImpl_getResult_eq _ _ _ E)).
    reflexivity.
Qed.

(** X2. A Result shared through [setResult] is one object: after
    [t2.setResult(t1.getResult())], [allocateResult()] on [t1] writes the
    Result that [t2] reads through its own handle, computed from the input
    and parameter of [t1]. *)
Theorem shared_Result_is_aliased (h : heap) (t1 t2 : loc) (b1 b2 : Batch)
    (lr : loc) (res : ResultType) :
  h !! t1 = Some (OBatch b1) → h !! t2 = Some (OBatch b2) → t1 ≠ t2 →
  _result b1 = SharedPtr_ctor (pointer_to lr) → h !! lr = Some (OResult res) →
  ∃ h' b2',
    (r ← BatchImpl_getResult t1;
     BatchImpl_setResult t2 r;;
     virtual Batch_allocateResult t1) h
    = Some ((Result_allocate (algorithmFPType b1) (input b1) (parameter b1)
               (method b1) res).1, h') ∧
    h' !! t2 = Some (OBatch b2') ∧
    _result b2' = _result b1 ∧ input b2' = input b2 ∧ parameter b2' = parameter b2 ∧
    load_Result (SharedPtr_get (_result b2')) h'
    = Some ((lr, (Result_allocate (algorithmFPType b1) (input b1) (parameter b1)
                    (method b1) res).2), h').
Proof.
  intros E1 E2 N Er El.
  assert (Hn : SharedPtr_bool (_result b1) = true) by (rewrite Er; reflexivity).
  assert (N1 : lr ≠ t1) by congruence.
  assert (N2 : lr ≠ t2) by congruence.
  set (b2' := set__res (upcast (SharedPtr_get (_result b1))) (set__result (_result b1) b2)).
  set (h1 := <[t2 := OBatch b2']> h).
  assert (E1' : h1 !! t1 = Some (OBatch b1)) by (unfold h1; rewrite lookup_insert_ne; done).
  assert (El' : h1 !! lr = Some (OResult res)) by (unfold h1; rewrite lookup_insert_ne; done).
  eexists _, b2'.
  rewrite (bind_Some _ _ _ _ _ (BatchImpl_getResult_eq _ _ _ E1)).
  rewrite (bind_Some _ _ _ _ _ (BatchImpl_setResult_eq _ _ _ _ E2 Hn)). fold b2' h1.
  rewrite (virtual_eq _ _ _ _ E1').
  rewrite (Batch_allocateResult_eq _ _ _ _ _ _ _ E1' Er El').
  split; [reflexivity |].
  split; [unfold h1; rewrite !lookup_insert_ne by done; apply lookup_insert_eq |].
  split; [reflexivity |]. split; [reflexivity |]. split; [reflexivity |].
  change (_result b2') with (_result b1). rewrite Er.
  apply load_Result_handle. rewrite lookup_insert_ne by done. apply lookup_insert_eq.
Qed.

(** X3. [allocateResult()] twice: nothing guards a second allocation.
    [allocate] runs again, on what the first call left in the Result, and
    the second Status is the one of that second run. *)
Theorem allocateResult_twice (h : heap) (fp : FPType) (m : Method) (this : loc)
    (b : Batch) (lr : loc) (res : ResultType) :
  h !! this = Some (OBatch b) →
  _result b = SharedPtr_ctor (pointer_to lr) →
  h !! lr = Some (OResult res) →
  let allocate := Result_allocate fp (input b) (parameter b) m in
  ∃ h',
    (s1 ← Batch_allocateResult fp m this;
     s2 ← Batch_allocateResult fp m this;
     mret (s1, s2)) h
    = Some (((allocate res).1, (allocate (allocate res).2).1), h') ∧
    h' !! lr = Some (OResult (allocate (allocate res).2).2).
Proof.
  intros E Er El allocate.
  assert (N : lr ≠ this) by congruence.
  set (b1 := set__res (pointer_to lr) b).
  set (h1 := <[this := OBatch b1]> (<[lr := OResult (allocate res).2]> h)).
  assert (E1 : h1 !! this = Some (OBatch b1)) by apply lookup_insert_eq.
  assert (El1 : h1 !! lr = Some (OResult (allocate res).2)).
  { unfold h1. rewrite lookup_insert_ne by done. apply lookup_insert_eq. }
  eexists.
  rewrite (bind_Some _ _ _ _ _ (Batch_allocateResult_eq _ _ _ _ _ _ _ E Er El)).
  fold allocate b1 h1.
  rewrite (bind_Some _ _ _ _ _ (Batch_allocateResult_eq _ fp m _ _ _ _ E1 Er El1)).
  split; [reflexivity |].
  rewrite lookup_insert_ne by done. apply lookup_insert_eq.
Qed.

Lemma clone_then_allocate (h : heap) (this : loc) (b : Batch)
    (lr : loc) (res : ResultType) :
  h !! this = Some (OBatch b) →
  _result b = SharedPtr_ctor (pointer_to lr) →
  h !! lr = Some (OResult res) →
  let allocate :=
    Result_allocate (algorithmFPType b) (input b) (parameter b) (method b) in
  ∃ l lr' h1 h2 b',
    BatchImpl_clone this h = Some (SharedPtr_ctor (pointer_to l), h1) ∧
    virtual Batch_allocateResult l h1 = Some ((allocate ResultType_ctor).1, h2) ∧
    h2 !! l = Some (OBatch b') ∧ _result b' = SharedPtr_ctor (pointer_to lr') ∧
    lr' ≠ lr ∧ l ≠ this ∧ l ≠ lr ∧ lr' ≠ this ∧
    h2 !! lr' = Some (OResult (allocate ResultType_ctor).2) ∧
    h2 !! this = Some (OBatch b) ∧
    h2 !! lr = Some (OResult res).
Proof.
  intros E Er El allocate.
  destruct (Batch_cloneImpl_spec h (algorithmFPType b) (method b) this b E)
    as (l & lr' & lc & Fl & Fr & Fc & N1 & N2 & N3 & Ec).
  set (bc := constructed (algorithmFPType b) (method b) l lr' lc (input b) (parameter b)).
  set (h1 := after_construction h (algorithmFPType b) (method b) l lr' lc
               (input b) (parameter b)).
  assert (Ecl : h1 !! l = Some (OBatch bc)) by apply after_construction_this.
  assert (Erc : h1 !! lr' = Some (OResult ResultType_ctor))
    by (apply after_construction_Result; done).
  exists l, lr', h1. eexists _, _.
  split.
  { unfold BatchImpl_clone.
    rewrite bind_eq, (virtual_eq _ _ _ _ E), Ec, ret_eq. reflexivity. }
  rewrite (virtual_eq _ _ _ _ Ecl).
  split; [exact (Batch_allocateResult_eq _ _ _ _ _ _ _ Ecl eq_refl Erc) |].
  split; [apply lookup_insert_eq |]. split; [reflexivity |].
  do 4 (split; [congruence |]).
  split; [rewrite lookup_insert_ne by done; apply lookup_insert_eq |].
  split.
  - rewrite !lookup_insert_ne by congruence.
    unfold h1. rewrite after_construction_other by congruence. done.
  - rewrite !lookup_insert_ne by congruence.
    unfold h1. rewrite after_construction_other by congruence. done.
Qed.

(** X4. A clone is independent of its source: [allocateResult()] on the
    clone allocates the clone's own Result, from the source's input and
    parameter, and leaves the source instance and the content of the
    source's Result as they were. *)
Theorem clone_allocates_its_own (h : heap) (this : loc) (b : Batch)
    (lr : loc) (res : ResultType) :
  h !! this = Some (OBatch b) →
  _result b = SharedPtr_ctor (pointer_to lr) →
  h !! lr = Some (OResult res) →
  let allocate :=
    Result_allocate (algorithmFPType b) (input b) (parameter b) (method b) in
  ∃ l lr' h1 h2 b',
    BatchImpl_clone this h = Some (SharedPtr_ctor (pointer_to l), h1) ∧
    virtual Batch_allocateResult l h1 = Some ((allocate ResultType_ctor).1, h2) ∧
    h2 !! l = Some (OBatch b') ∧ _result b' = SharedPtr_ctor (pointer_to lr') ∧
    lr' ≠ lr ∧
    h2 !! lr' = Some (OResult (allocate ResultType_ctor).2) ∧
    h2 !! this = Some (OBatch b) ∧
    h2 !! lr = Some (OResult res).
Proof.
  intros E Er El allocate.
  destruct (clone_then_allocate h this b lr res E Er El)
    as (l & lr' & h1 & h2 & b' & Hc & Ha & Eb' & Er' & N & _ & _ & _ & Elr' & Et & Elr).
  exists l, lr', h1, h2, b'. done.
Qed.

(** X6. The class of an instance is fixed: [getMethod()] on an instance
    answers the same before and after any call, and on a clone it answers
    what it answers on the source. *)
Theorem getMethod_stable (to_int : Method → Z) (h : heap) (c : call) :
  pre h c →
  ∃ r h',
    exec c h = Some (r, h') ∧
    (∀ t b, h !! t = Some (OBatch b) →
       virtual (Batch_getMethod to_int) t h = Some (to_int (method b), h) ∧
       virtual (Batch_getMethod to_int) t h' = Some (to_int (method b), h')) ∧
    (∀ src b, c = call_clone src → h !! src = Some (OBatch b) →
       ∃ l, r = ret_BatchImpl (SharedPtr_ctor (pointer_to l)) ∧ l ≠ src ∧
            virtual (Batch_getMethod to_int) l h' = Some (to_int (method b), h')).
Proof.
  intros Hp. destruct (exec_progress h c Hp) as (r & h' & Ex & Hs).
  exists r, h'. split; [done |]. split.
  - intros t b Eb. split; [by rewrite (virtual_eq _ _ _ _ Eb) |].
    destruct (exec_spec_instance_kept _ _ _ _ _ _ Hs Eb) as [b' Eb'].
    rewrite (virtual_eq _ _ _ _ Eb').
    destruct (exec_spec_instance _ _ _ _ _ _ Hs Eb')
      as [(b0 & Eb0 & Hk & _) | (Fl & _)]; [| congruence].
    assert (b0 = b) as -> by congruence.
    destruct Hk as (_ & -> & _). reflexivity.
  - intros src b -> Eb. inversion Hs; subst.
    exists l. split; [done |]. split; [congruence |].
    rewrite (virtual_eq _ _ _ _ (after_construction_this _ _ _ _ _ _ _ _)).
    cbn. unfold Batch_getMethod. rewrite ret_eq. congruence.
Qed.

Lemma exec_spec_Container_bound (h h' : heap) c r :
  Container_bound h → exec_spec h c r h' → Container_bound h'.
Proof.
  intros Hc Hs. apply map_Forall_lookup. intros l [| | |b'] El; try done.
  destruct (exec_spec_instance _ _ _ _ _ _ Hs El)
    as [(b & Eb & Hk & _) | (_ & fp & m & lr & lc & i & p & -> & _ & _ & _ & Ec)].
  - destruct Hk as (-> & -> & _ & _ & -> & _ & _ & ->).
    destruct (map_Forall_lookup_1 _ _ _ _ Hc Eb) as (lc & Hac & Elc).
    exists lc. split; [done |]. exact (exec_spec_Container_kept _ _ _ _ _ _ Hs Elc).
  - exists lc. split; [done | exact Ec].
Qed.

(** X7. Dispatch is per instance: in every store reached by a sequence of
    calls from a store where it holds (the empty store is one), the
    Container of every instance is the one made for that instance's own
    template arguments and Environment, and no two instances have the same
    Container. *)
Theorem Container_matches_instance (cs : list call) (h : heap) :
  Result_installed h → Container_bound h → calls_usable cs h →
  ∃ rs h',
    run cs h = Some (rs, h') ∧ Container_bound h' ∧
    ∀ l1 l2 b1 b2,
      h' !! l1 = Some (OBatch b1) → h' !! l2 = Some (OBatch b2) →
      _ac (super b1) = _ac (super b2) → l1 = l2.
Proof.
  intros Hi Hc Hu.
  destruct (run_invariant Container_bound (λ _, True)
              (λ h0 c r h1 _ Hc0 _ _ Hs, exec_spec_Container_bound h0 h1 c r Hc0 Hs)
              cs h Hi Hc Hu) as (rs & h' & Er & _ & Hc').
  { by apply Forall_forall. }
  exists rs, h'. split; [done |]. split; [done |].
  intros l1 l2 b1 b2 E1 E2 Hac.
  destruct (map_Forall_lookup_1 _ _ _ _ Hc' E1) as (lc1 & H1 & Ec1).
  destruct (map_Forall_lookup_1 _ _ _ _ Hc' E2) as (lc2 & H2 & Ec2).
  rewrite H1, H2 in Hac. injection Hac as ->.
  rewrite Ec1 in Ec2. by injection Ec2.
Qed.

Lemma exec_spec_Result_unshared (h h' : heap) c r :
  Result_installed h → Result_unshared h → installs_nothing c →
  exec_spec h c r h' → Result_unshared h'.
Proof.
  intros Hi Hun Hc Hs l1 l2 b1' b2' E1 E2 Heq.
  assert (Hold : ∀ l b', h' !! l = Some (OBatch b') →
            (∃ b, h !! l = Some (OBatch b) ∧ _result b' = _result b ∧
                  live_Result h (_result b))
            ∨ (h !! l = None ∧ ∃ lr, _result b' = SharedPtr_ctor (pointer_to lr) ∧
                                     h !! lr = None)).
  { intros l b' El.
    destruct (exec_spec_instance _ _ _ _ _ _ Hs El)
      as [(b & Eb & _ & [[Er _] | [(Er & _) | (-> & Hne & _)]])
         | (Fl & fp & m & lr & lc & i & p & -> & Fr & _)].
    - left. exists b. split; [done |]. split; [done |].
      exact (map_Forall_lookup_1 _ _ _ _ Hi Eb).
    - left. exists b. split; [done |]. split; [done |].
      exact (map_Forall_lookup_1 _ _ _ _ Hi Eb).
    - cbn in Hc. congruence.
    - right. split; [done |]. by exists lr. }
  destruct (Hold _ _ E1) as [(b1 & Eb1 & Er1 & L1) | (F1 & lr1 & Er1 & Fr1)];
    destruct (Hold _ _ E2) as [(b2 & Eb2 & Er2 & L2) | (F2 & lr2 & Er2 & Fr2)].
  - apply (Hun l1 l2 b1 b2); congruence.
  - apply live_Result_inv in L1 as (x & res & Hx & Ex).
    rewrite Er1, Hx, Er2 in Heq. apply handle_inj in Heq. congruence.
  - apply live_Result_inv in L2 as (x & res & Hx & Ex).
    rewrite Er2, Hx, Er1 in Heq. apply handle_inj in Heq. congruence.
  - exact (exec_spec_new_unique _ _ _ _ _ _ _ _ Hs E1 F1 E2 F2).
Qed.

(** X8. A Result is shared only through [setResult]: in a sequence of
    calls that passes no non-empty handle to [setResult], starting where no
    two instances hold the same Result handle (the empty store is such a
    start), no two instances ever do. *)
Theorem Result_shared_only_by_setResult (cs : list call) (h : heap) :
  Result_installed h → Result_unshared h → calls_usable cs h →
  Forall installs_nothing cs →
  ∃ rs h', run cs h = Some (rs, h') ∧ Result_unshared h'.
Proof.
  intros Hi Hun Hu Hn.
  destruct (run_invariant Result_unshared installs_nothing
              (λ h0 c r h1 Hi0 Hun0 _ Hc Hs,
                 exec_spec_Result_unshared h0 h1 c r Hi0 Hun0 Hc Hs)
              cs h Hi Hun Hu Hn) as (rs & h' & Er & _ & Hun').
  by exists rs, h'.
Qed.

(** X10. The parameter of a clone is a copy: [getParameter()] on the clone
    and on the source return different pointers, each into its own instance,
    and the base views read through them are equal. *)
Theorem clone_getParameter (h : heap) (this : loc) (b : Batch) :
  h !! this = Some (OBatch b) →
  ∃ l h' p p',
    BatchImpl_clone this h = Some (SharedPtr_ctor (pointer_to l), h') ∧
    virtual Batch_getParameter this h' = Some (p, h') ∧
    virtual Batch_getParameter l h' = Some (p', h') ∧
    p ≠ p' ∧
    address p = Some (member_of this m_parameter) ∧
    address p' = Some (member_of l m_parameter) ∧
    load_BaseParameter p h' = Some (to_BaseParameter (parameter b), h') ∧
    load_BaseParameter p' h' = Some (to_BaseParameter (parameter b), h').
Proof.
  intros E.
  destruct (Batch_cloneImpl_spec h (algorithmFPType b) (method b) this b E)
    as (l & lr & lc & Fl & Fr & Fc & N1 & N2 & N3 & Ec).
  set (h' := after_construction h (algorithmFPType b) (method b) l lr lc
               (input b) (parameter b)).
  assert (El : h' !! l = Some (OBatch (constructed (algorithmFPType b) (method b)
                                         l lr lc (input b) (parameter b))))
    by apply after_construction_this.
  assert (Et : h' !! this = Some (OBatch b)).
  { unfold h'. rewrite after_construction_other by congruence. done. }
  exists l, h'. eexists _, _.
  split.
  { unfold BatchImpl_clone.
    rewrite bind_eq, (virtual_eq _ _ _ _ E), Ec, ret_eq. reflexivity. }
  rewrite (virtual_eq _ _ _ _ Et), (virtual_eq _ _ _ _ El).
  split; [reflexivity |]. split; [reflexivity |].
  split; [intros [=]; congruence |].
  split; [reflexivity |]. split; [reflexivity |].
  unfold load_BaseParameter. cbn.
  rewrite (bind_Some _ _ _ _ _ (load_Batch_eq _ _ _ Et)).
  rewrite (bind_Some _ _ _ _ _ (load_Batch_eq _ _ _ El)). done.
Qed.

(** X11. [new Batch<fp, m>()] gives an instance of that class at a free
    location, with the default input and the default parameter of the
    class, its own Result, not yet allocated, at another free location and
    [_in], [_par] pointing into itself; [_res] is still what the base
    constructor left, and every object of the store is as it was. *)
Theorem new_Batch_state (h : heap) (fp : FPType) (m : Method) :
  ∃ l lr h' b,
    new_Batch fp m h = Some (pointer_to l, h') ∧
    h !! l = None ∧ h !! lr = None ∧ l ≠ lr ∧
    h' !! l = Some (OBatch b) ∧
    algorithmFPType b = fp ∧ method b = m ∧
    input b = InputType_ctor ∧ parameter b = ParameterType_ctor fp m ∧
    _result b = SharedPtr_ctor (pointer_to lr) ∧
    h' !! lr = Some (OResult ResultType_ctor) ∧
    coherent_members l b ∧ _res (super b) = _res Algorithm_ctor ∧
    ∀ x o, h !! x = Some o → h' !! x = Some o.
Proof.
  destruct (new_Batch_spec h fp m) as (l & lr & lc & Fl & Fr & Fc & N1 & N2 & N3 & E).
  exists l, lr. eexists _, _. split; [exact E |].
  do 3 (split; [done |]). split; [apply after_construction_this |].
  do 5 (split; [reflexivity |]).
  split; [by apply after_construction_Result |].
  split; [by split |]. split; [reflexivity |].
  intros x o Ex. rewrite after_construction_other by congruence. done.
Qed.

End interface2_compositions.

(** *** Examples *)

Section examples.
Import Demo.

Example store1_is_new_Batch :
  new_Batch FP_double defaultDense ∅ = Some (pointer_to 1, store1).
Proof. vm_compute. reflexivity. Qed.

Example store3_allocated :
  store3 !! 2%positive = Some (OResult [5]) ∧
  store3 !! 1%positive = Some (OBatch instance3).
Proof. split; vm_compute; reflexivity. Qed.

Lemma setResult_contract_witness :
  store1 !! 1%positive = Some (OBatch instance1) ∧
  ∃ s h' b',
    BatchImpl_setResult 1 SharedPtr_null store1 = Some (s, h') ∧
    h' !! 1%positive = Some (OBatch b') ∧
    s = Status_of ErrorNullResult ∧ h' = store1 ∧
    _result b' = _result instance1 ∧ _res (super b') = _res (super instance1).
Proof.
  split; [reflexivity |].
  exact (setResult_contract store1 1 instance1 SharedPtr_null eq_refl).
Defined.

Lemma clone_fresh_Result_witness :
  store3 !! 1%positive = Some (OBatch instance3) ∧
  live_Result store3 (_result instance3) ∧
  ∃ l h',
    BatchImpl_clone 1 store3 = Some (SharedPtr_ctor (pointer_to l), h') ∧
    copy_of store3 h' instance3 l ∧
    h' !! 2%positive = Some (OResult [5]).
Proof.
  assert (E : store3 !! 1%positive = Some (OBatch instance3)) by (vm_compute; reflexivity).
  assert (L : live_Result store3 (_result instance3)) by (vm_compute; exact I).
  split; [exact E |]. split; [exact L |].
  destruct (clone_fresh_Result store3 1 instance3 E L)
    as [(l & h' & Hc & _ & _ & Hcopy & _ & Hres) _].
  exists l, h'. split; [exact Hc |]. split; [exact Hcopy |].
  apply Hres. vm_compute. reflexivity.
Defined.

Lemma container_bound_at_construction_witness :
  pre store2 (call_clone 1) ∧
  ∃ r h', exec (call_clone 1) store2 = Some (r, h') ∧
    h' !! 3%positive = Some (OContainer (bound_Container FP_double defaultDense 1)).
Proof.
  assert (P : pre store2 (call_clone 1)) by (vm_compute; exact I).
  split; [exact P |].
  destruct (container_bound_at_construction store2 (call_clone 1) P)
    as (r & h' & Ex & _ & Hk & _).
  exists r, h'. split; [exact Ex |]. apply Hk. vm_compute. reflexivity.
Defined.

Lemma allocateResult_contract_witness :
  store2 !! 1%positive = Some (OBatch instance2) ∧
  _result instance2 = SharedPtr_ctor (pointer_to 2) ∧
  store2 !! 2%positive = Some (OResult []) ∧
  ∃ h', Batch_allocateResult FP_double defaultDense 1 store2 = Some (Status_ctor, h') ∧
        h' !! 2%positive = Some (OResult [5]).
Proof.
  split; [reflexivity |]. split; [reflexivity |]. split; [reflexivity |].
  destruct (allocateResult_contract store2 FP_double defaultDense 1 instance2 2 []
              eq_refl eq_refl eq_refl) as [(h' & b' & Ea & Er & _) _].
  exists h'. split; [exact Ea | exact Er].
Defined.

Lemma getResult_as_is_witness :
  store1 !! 1%positive = Some (OBatch instance1) ∧
  store1 !! 2%positive = Some (OResult ResultType_ctor) ∧
  BatchImpl_getResult 1 store1 = Some (SharedPtr_ctor (pointer_to 2), store1).
Proof.
  split; [reflexivity |]. split; [reflexivity |].
  exact (proj1 (getResult_as_is store1 1 instance1 eq_refl)).
Defined.

Lemma getParameter_base_view_witness :
  store1 !! 1%positive = Some (OBatch instance1) ∧
  load_BaseParameter (upcast (address_of (T := zscore_Parameter) 1 m_parameter)) store1
  = Some (0%N, store1).
Proof.
  split; [reflexivity |].
  exact (proj2 (proj2 (proj2 (getParameter_base_view store1 FP_float sumDense 1 instance1
                                eq_refl)))).
Defined.

Lemma Result_handle_never_empty_witness :
  Result_installed (∅ : heap) ∧ calls_usable script ∅ ∧
  ∃ rs h', run script ∅ = Some (rs, h') ∧ Result_installed h'.
Proof.
  assert (I0 : Result_installed (∅ : heap)) by apply map_Forall_empty.
  assert (U : calls_usable script ∅) by (vm_compute; repeat split).
  split; [exact I0 |]. split; [exact U |].
  destruct (Result_handle_never_empty script ∅ I0 U) as (rs & h' & Er & Hi & _).
  exists rs, h'. split; [exact Er | exact Hi].
Defined.

(** C9, the claim as stated fails: on the instance that [new] has just made,
    [setResult] with an empty handle is rejected and leaves [_res] null,
    while [_result.get()] is the address of the instance's Result. *)
Lemma rejected_setResult_leaves_res_stale :
  new_Batch FP_double defaultDense ∅ = Some (pointer_to 1, store1) ∧
  exec (call_setResult 1 SharedPtr_null) store1
    = Some (ret_Status (Status_of ErrorNullResult), store1) ∧
  store1 !! 1%positive = Some (OBatch instance1) ∧
  _res (super instance1) = nullptr ∧
  SharedPtr_get (_result instance1) = pointer_to 2 ∧
  ¬ coherent_res instance1 ∧
  ¬ (∀ (h : heap) c r h' t b',
       Coherent h → pre h c → exec c h = Some (r, h') →
       h' !! t = Some (OBatch b') → Result_operation c t → coherent_res b').
Proof.
  assert (Ex : exec (call_setResult 1 SharedPtr_null) store1
               = Some (ret_Status (Status_of ErrorNullResult), store1))
    by (vm_compute; reflexivity).
  assert (Hn : ¬ coherent_res instance1) by (intros [=]).
  split; [vm_compute; reflexivity |]. split; [exact Ex |].
  split; [reflexivity |]. split; [reflexivity |]. split; [reflexivity |].
  split; [exact Hn |].
  intros Hall. apply Hn.
  apply (Hall store1 (call_setResult 1 SharedPtr_null)
           (ret_Status (Status_of ErrorNullResult)) store1 1%positive instance1).
  - unfold Coherent, store1, after_construction.
    repeat (apply map_Forall_insert_2; [by vm_compute |]).
    apply map_Forall_empty.
  - vm_compute. exact I.
  - exact Ex.
  - reflexivity.
  - reflexivity.
Qed.

Lemma cached_pointers_coherent_witness :
  Coherent store2 ∧ pre store2 (call_allocateResult 1) ∧
  ∃ r h', exec (call_allocateResult 1) store2 = Some (r, h') ∧ Coherent h'.
Proof.
  assert (C : Coherent store2).
  { unfold Coherent, store2, store1, after_construction.
    repeat (apply map_Forall_insert_2; [by vm_compute |]).
    apply map_Forall_empty. }
  assert (P : pre store2 (call_allocateResult 1)) by (vm_compute; exact I).
  split; [exact C |]. split; [exact P |].
  destruct (cached_pointers_coherent store2 (call_allocateResult 1) C P)
    as (r & h' & Ex & Hc & _).
  exists r, h'. split; [exact Ex | exact Hc].
Defined.

Lemma setResult_getResult_witness :
  store4 !! 4%positive = Some (OBatch instance4) ∧
  ∃ h',
    (s ← BatchImpl_setResult 4 (SharedPtr_ctor (pointer_to 2));
     g ← BatchImpl_getResult 4;
     mret (s, g)) store4
    = Some ((Status_ctor, SharedPtr_ctor (pointer_to 2)), h').
Proof.
  split; [reflexivity |].
  exact (setResult_getResult store4 4 instance4 (SharedPtr_ctor (pointer_to 2)) eq_refl).
Defined.

Lemma shared_Result_is_aliased_witness :
  store4 !! 1%positive = Some (OBatch instance2) ∧
  store4 !! 4%positive = Some (OBatch instance4) ∧
  _result instance2 = SharedPtr_ctor (pointer_to 2) ∧
  store4 !! 2%positive = Some (OResult []) ∧
  ∃ h' b',
    h' !! 4%positive = Some (OBatch b') ∧
    load_Result (SharedPtr_get (_result b')) h' = Some ((2%positive, [5]), h').
Proof.
  split; [reflexivity |]. split; [reflexivity |]. split; [reflexivity |].
  split; [reflexivity |].
  destruct (shared_Result_is_aliased store4 1 4 instance2 instance4 2 []
              eq_refl eq_refl ltac:(discriminate) eq_refl eq_refl)
    as (h' & b' & _ & Eb & _ & _ & _ & Hl).
  exists h', b'. split; [exact Eb | exact Hl].
Defined.

Lemma allocateResult_twice_witness :
  store2 !! 1%positive = Some (OBatch instance2) ∧
  store2 !! 2%positive = Some (OResult []) ∧
  ∃ h',
    (s1 ← Batch_allocateResult FP_double defaultDense 1;
     s2 ← Batch_allocateResult FP_double defaultDense 1;
     mret (s1, s2)) store2
    = Some ((Status_ctor, Status_ctor), h') ∧
    h' !! 2%positive = Some (OResult [5]).
Proof.
  split; [reflexivity |]. split; [reflexivity |].
  exact (allocateResult_twice store2 FP_double defaultDense 1 instance2 2 []
           eq_refl eq_refl eq_refl).
Defined.

Lemma clone_allocates_its_own_witness :
  store3 !! 1%positive = Some (OBatch instance3) ∧
  store3 !! 2%positive = Some (OResult [5]) ∧
  ∃ l h1 h2,
    BatchImpl_clone 1 store3 = Some (SharedPtr_ctor (pointer_to l), h1) ∧
    virtual Batch_allocateResult l h1 = Some (Status_ctor, h2) ∧
    h2 !! 1%positive = Some (OBatch instance3) ∧
    h2 !! 2%positive = Some (OResult [5]).
Proof.
  assert (E : store3 !! 1%positive = Some (OBatch instance3)) by (vm_compute; reflexivity).
  assert (El : store3 !! 2%positive = Some (OResult [5])) by (vm_compute; reflexivity).
  split; [exact E |]. split; [exact El |].
  destruct (clone_allocates_its_own store3 1 instance3 2 [5] E eq_refl El)
    as (l & lr' & h1 & h2 & b' & Hc & Ha & _ & _ & _ & _ & Et & Elr).
  exists l, h1, h2. split; [exact Hc |]. split; [exact Ha |]. split; [exact Et | exact Elr].
Defined.

Lemma getMethod_stable_witness :
  pre store4 (call_clone 4) ∧
  ∃ r h',
    exec (call_clone 4) store4 = Some (r, h') ∧
    virtual (Batch_getMethod int_of_Method) 4 h' = Some (1%Z, h') ∧
    virtual (Batch_getMethod int_of_Method) 1 h' = Some (0%Z, h').
Proof.
  assert (P : pre store4 (call_clone 4)) by (vm_compute; exact I).
  split; [exact P |].
  destruct (getMethod_stable int_of_Method store4 (call_clone 4) P)
    as (r & h' & Ex & Hk & _).
  exists r, h'. split; [exact Ex |].
  split; [exact (proj2 (Hk 4%positive instance4 eq_refl))
         | exact (proj2 (Hk 1%positive instance2 eq_refl))].
Defined.

Lemma Container_matches_instance_witness :
  Result_installed (∅ : heap) ∧ Container_bound (∅ : heap) ∧ calls_usable script ∅ ∧
  ∃ rs h', run script ∅ = Some (rs, h') ∧ Container_bound h'.
Proof.
  assert (I0 : Result_installed (∅ : heap)) by apply map_Forall_empty.
  assert (C0 : Container_bound (∅ : heap)) by apply map_Forall_empty.
  assert (U : calls_usable script ∅) by (vm_compute; repeat split).
  split; [exact I0 |]. split; [exact C0 |]. split; [exact U |].
  destruct (Container_matches_instance script ∅ I0 C0 U) as (rs & h' & Er & Hc & _).
  exists rs, h'. split; [exact Er | exact Hc].
Defined.

Lemma Result_shared_only_by_setResult_witness :
  Result_installed (∅ : heap) ∧ Result_unshared (∅ : heap) ∧
  calls_usable script_without_sharing ∅ ∧
  Forall installs_nothing script_without_sharing ∧
  ∃ rs h', run script_without_sharing ∅ = Some (rs, h') ∧ Result_unshared h'.
Proof.
  assert (I0 : Result_installed (∅ : heap)) by apply map_Forall_empty.
  assert (U0 : Result_unshared (∅ : heap)).
  { intros l1 l2 b1 b2 E1. rewrite lookup_empty in E1. discriminate. }
  assert (U : calls_usable script_without_sharing ∅) by (vm_compute; repeat split).
  assert (N : Forall installs_nothing script_without_sharing)
    by (repeat constructor).
  split; [exact I0 |]. split; [exact U0 |]. split; [exact U |]. split; [exact N |].
  exact (Result_shared_only_by_setResult script_without_sharing ∅ I0 U0 U N).
Defined.

Lemma clone_getParameter_witness :
  store2 !! 1%positive = Some (OBatch instance2) ∧
  ∃ l h' p p',
    BatchImpl_clone 1 store2 = Some (SharedPtr_ctor (pointer_to l), h') ∧
    virtual Batch_getParameter 1 h' = Some (p, h') ∧
    virtual Batch_getParameter l h' = Some (p', h') ∧
    p ≠ p' ∧
    load_BaseParameter p h' = Some (0%N, h') ∧
    load_BaseParameter p' h' = Some (0%N, h').
Proof.
  split; [reflexivity |].
  destruct (clone_getParameter store2 1 instance2 eq_refl)
    as (l & h' & p & p' & Hc & G & G' & N & _ & _ & L & L').
  exists l, h', p, p'.
  split; [exact Hc |]. split; [exact G |]. split; [exact G' |]. split; [exact N |].
  split; [exact L | exact L'].
Defined.

End examples.

End Zscore.

(** ** The claims on [xavier_initializer_task_descriptor.cpp] *)

Module XavierFacts.
Import Xavier Xavier.internal.

Lemma SharedPtr_get_empty {T} (s : SharedPtr T) :
  SharedPtr_bool s = false → SharedPtr_get s = nullptr.
Proof. destruct s as [[[p|]]]; cbn; [discriminate | reflexivity]. Qed.

Lemma load_Parameter_eq (h : gmap loc object) l P :
  h !! l = Some (OParameter P) → load_Parameter (pointer_to l) h = Some (P, h).
Proof.
  intros E. unfold load_Parameter, mbind, M_mbind, M_bind, read. cbn. rewrite E. reflexivity.
Qed.

Lemma load_Result_eq (h : gmap loc object) l R :
  h !! l = Some (OResult R) → load_Result (pointer_to l) h = Some (R, h).
Proof.
  intros E. unfold load_Result, mbind, M_mbind, M_bind, read. cbn. rewrite E. reflexivity.
Qed.

Lemma ctor_eq (h : gmap loc object) lre lpa R P :
  h !! lre = Some (OResult R) → h !! lpa = Some (OParameter P) →
  XavierInitializerTaskDescriptor_ctor (pointer_to lre) (pointer_to lpa) h
  = Some (mk_XavierInitializerTaskDescriptor
            (SharedPtr_get (Xavier.engine P)) (SharedPtr_get (Xavier.layer P))
            (SharedPtr_get (Result_get R value)), h).
Proof.
  intros Er Ep. unfold XavierInitializerTaskDescriptor_ctor.
  unfold mbind, M_mbind, M_bind.
  rewrite (load_Parameter_eq _ _ _ Ep). cbn beta iota zeta.
  rewrite (load_Parameter_eq _ _ _ Ep). cbn beta iota zeta.
  rewrite (load_Result_eq _ _ _ Er). reflexivity.
Qed.

(** C3. Built from pointers to a Result and a Parameter of the store, the
    descriptor holds [pa->engine.get()], [pa->layer.get()] and
    [re->get(value).get()]: for a handle that owns an object, the address of
    that very object.  The constructor makes no object and changes none, and
    this holds for all handles, empty or not: nothing is checked. *)
Theorem descriptor_holds_raw_pointers (h : gmap loc object) (lre lpa : loc)
    (R : Result) (P : XavierParameter) :
  h !! lre = Some (OResult R) → h !! lpa = Some (OParameter P) →
  ∃ td,
    XavierInitializerTaskDescriptor_ctor (pointer_to lre) (pointer_to lpa) h
      = Some (td, h) ∧
    engine td = SharedPtr_get (Xavier.engine P) ∧
    layer td = SharedPtr_get (Xavier.layer P) ∧
    result td = SharedPtr_get (Result_get R value) ∧
    (∀ e, Xavier.engine P = SharedPtr_ctor (pointer_to e) → engine td = pointer_to e) ∧
    (∀ y, Xavier.layer P = SharedPtr_ctor (pointer_to y) → layer td = pointer_to y) ∧
    (∀ t, Result_get R value = SharedPtr_ctor (pointer_to t) → result td = pointer_to t).
Proof.
  intros Er Ep. eexists. split; [exact (ctor_eq _ _ _ _ _ Er Ep) |]. cbn.
  repeat split; try done; by intros ? ->.
Qed.

Lemma descriptor_holds_raw_pointers_witness :
  Demo.configured !! 2%positive
    = Some (OResult (mk_Result (λ _, SharedPtr_ctor (pointer_to 12)))) ∧
  Demo.configured !! 1%positive
    = Some (OParameter (mk_XavierParameter (SharedPtr_ctor (pointer_to 10))
                          (SharedPtr_ctor (pointer_to 11)))) ∧
  ∃ td,
    XavierInitializerTaskDescriptor_ctor (pointer_to 2) (pointer_to 1) Demo.configured
      = Some (td, Demo.configured) ∧
    engine td = pointer_to 10 ∧ layer td = pointer_to 11 ∧ result td = pointer_to 12.
Proof.
  split; [reflexivity |]. split; [reflexivity |].
  destruct (descriptor_holds_raw_pointers Demo.configured 2 1 _ _ eq_refl eq_refl)
    as (td & Ec & He & Hl & Hr & _).
  exists td. split; [exact Ec |]. split; [exact He |]. split; [exact Hl | exact Hr].
Defined.

(** C10. Given pointers to a Result and a Parameter of the store, the
    constructor always gives a descriptor; where the engine handle, the
    layer handle or the value entry is empty, the field of the descriptor
    is the null pointer, and there is no error to report. *)
Theorem descriptor_construction_total (h : gmap loc object) (lre lpa : loc)
    (R : Result) (P : XavierParameter) :
  h !! lre = Some (OResult R) → h !! lpa = Some (OParameter P) →
  ∃ td,
    XavierInitializerTaskDescriptor_ctor (pointer_to lre) (pointer_to lpa) h
      = Some (td, h) ∧
    (SharedPtr_bool (Xavier.engine P) = false → engine td = nullptr) ∧
    (SharedPtr_bool (Xavier.layer P) = false → layer td = nullptr) ∧
    (SharedPtr_bool (Result_get R value) = false → result td = nullptr).
Proof.
  intros Er Ep. eexists. split; [exact (ctor_eq _ _ _ _ _ Er Ep) |]. cbn.
  repeat split; apply SharedPtr_get_empty.
Qed.

Lemma descriptor_construction_total_witness :
  Demo.unconfigured !! 2%positive = Some (OResult (mk_Result (λ _, SharedPtr_null))) ∧
  Demo.unconfigured !! 1%positive
    = Some (OParameter (mk_XavierParameter SharedPtr_null SharedPtr_null)) ∧
  ∃ td,
    XavierInitializerTaskDescriptor_ctor (pointer_to 2) (pointer_to 1) Demo.unconfigured
      = Some (td, Demo.unconfigured) ∧
    engine td = nullptr ∧ layer td = nullptr ∧ result td = nullptr.
Proof.
  split; [reflexivity |]. split; [reflexivity |].
  destruct (descriptor_construction_total Demo.unconfigured 2 1 _ _ eq_refl eq_refl)
    as (td & Ec & He & Hl & Hr).
  exists td. split; [exact Ec |].
  split; [exact (He eq_refl) |]. split; [exact (Hl eq_refl) | exact (Hr eq_refl)].
Defined.

End XavierFacts.
